(** * EventRecorder: a shallow embedding of
      src/server/scripts/Custom/EventRecorder/EventRecorder.{h,cpp}

    The recorder is a process-wide singleton guarded by one mutex:
    StartSession, StopSession and every Record* method run to completion
    under the lock, so each of them is modelled as one atomic function
    on the state of the world.  LoadConfig and the getters take no lock;
    they are modelled as atomic steps as well.

    - uint32 / uint8 values are [Z], the wrap-around of [_eventCount++]
      is written out;
    - C++ [float] is IEEE binary32, taken from the standard library's
      [SpecFloat] at precision 24 and maximal exponent 128 (every
      operation rounds to nearest even, as SSE arithmetic does);
    - [std::string] is [string];
    - the file system is a finite map from paths to the lines written,
      the operational log is the list of diagnostics emitted. *)

From Stdlib Require Import ZArith Bool Ascii String DecimalString.
From Stdlib Require Import QArith.
From Stdlib Require Import Floats.SpecFloat.
From stdpp Require Import base gmap strings list fin_maps.

Local Open Scope Z_scope.

(** ** Machine numbers *)

Definition uint32_modulus : Z := 2 ^ 32.

(** [x++] on a uint32. *)
Definition uint32_incr (x : Z) : Z := (x + 1) mod uint32_modulus.

Module Float32.
Definition prec : Z := 24.
Definition emax : Z := 128.

Definition t := spec_float.

Definition zero : t := S754_zero false.
Definition add : t -> t -> t := SFadd prec emax.
Definition sub : t -> t -> t := SFsub prec emax.
Definition mul : t -> t -> t := SFmul prec emax.
Definition ltb : t -> t -> bool := SFltb.
Definition leb : t -> t -> bool := SFleb.
(** C++ [a > b] and [a <= b]; both are false when a NaN is involved. *)
Definition gtb (a b : t) : bool := ltb b a.

(** The binary32 number nearest to [m * 2^e]. *)
Definition of_scaled (m e : Z) : t := binary_normalize prec emax m e false.
Definition of_Z (m : Z) : t := of_scaled m 0.

(** The exact rational value of a finite number (0 for the others). *)
Definition to_Q (x : t) : Q :=
  match x with
  | S754_finite s m e =>
      let v := if Z.leb 0 e
               then inject_Z (Zpos m * 2 ^ e)
               else Qmake (Zpos m) (Z.to_pos (2 ^ (- e))) in
      if s then Qopp v else v
  | _ => 0%Q
  end.
End Float32.

(** ** Text *)

Definition chr_quote : ascii := "034"%char.
Definition chr_backslash : ascii := "092"%char.
Definition chr_newline : ascii := "010"%char.
Definition chr_return : ascii := "013"%char.
Definition chr_tab : ascii := "009"%char.
Definition chr_backspace : ascii := "008"%char.
Definition chr_formfeed : ascii := "012"%char.

Definition str1 (c : ascii) : string := String c EmptyString.

(** [{}] applied to an unsigned or signed integer: its decimal digits. *)
Definition fmt_int (z : Z) : string := NilZero.string_of_int (Z.to_int z).

Definition digit_char (d : Z) : ascii := ascii_of_nat (48 + Z.to_nat d).

(** [{:.3f}] applied to [ms / 1000.0] where [ms] is an integral number of
    milliseconds: the quotient is within half a unit in the last place
    of the decimal [ms/1000], so the three decimals printed are those of
    [ms] itself. *)
Definition fmt_millis (ms : Z) : string :=
  let a := Z.abs ms in
  let sign : string := if ms <? 0 then "-"%string else EmptyString in
  let whole : string := fmt_int (a / 1000) in
  let frac : string :=
    String (digit_char (a / 100 mod 10))
      (String (digit_char (a / 10 mod 10))
         (String (digit_char (a mod 10)) EmptyString)) in
  sign +:+ whole +:+ "." +:+ frac.

(** A JSON member name or string value between quotes. *)
Definition quoted (s : string) : string :=
  String chr_quote (s +:+ str1 chr_quote).

(** ["key":] *)
Definition key (k : string) : string := quoted k +:+ ":".

(** ** The host's entities, as far as the recorder reads them *)

Record Unit := mkUnit {
  GetName : string;
  GetGUID_ToString : string;
  GetEntry : Z;
  IsCreature : bool;
  IsPlayer : bool;
  GetMapId : Z;
  GetInstanceId : Z;
  GetPositionX : Float32.t;
  GetPositionY : Float32.t;
  GetPositionZ : Float32.t
}.

(** [SpellName[0]] is a [char const*] that may be null. *)
Record SpellInfo := mkSpellInfo {
  SpellName0 : option string;
  Id : Z
}.

Record Aura := mkAura { GetSpellInfo : option SpellInfo }.

Record AuraApplication := mkAuraApplication { GetBase : option Aura }.

(** ** The recorder object *)

(** [std::ofstream]: the path it is associated with when open, and its
    failbit.  Writes to an open stream in good state succeed. *)
Record ofstream := mkOfstream {
  stream_path : option string;
  failbit : bool
}.

Definition is_open (f : ofstream) : bool :=
  match stream_path f with Some _ => true | None => false end.

Record EventRecorder := mkEventRecorder {
  _enabled : bool;
  _active : bool;
  _sessionName : string;
  _outputDir : string;
  _maxEvents : Z;
  _eventCount : Z;
  _mapFilter : Z;
  _instanceFilter : Z;
  _radius : Float32.t;
  _recorderX : Float32.t;
  _recorderY : Float32.t;
  _recorderZ : Float32.t;
  _recorderMapId : Z;
  _sessionStart : Z;
  _outFile : ofstream
}.

(** The in-class member initialisers of EventRecorder.h. *)
Definition instance0 : EventRecorder :=
  {| _enabled := false; _active := false;
     _sessionName := EmptyString; _outputDir := EmptyString;
     _maxEvents := 100000; _eventCount := 0;
     _mapFilter := 0; _instanceFilter := 0;
     _radius := Float32.zero;
     _recorderX := Float32.zero; _recorderY := Float32.zero;
     _recorderZ := Float32.zero; _recorderMapId := 0;
     _sessionStart := 0;
     _outFile := {| stream_path := None; failbit := false |} |}.

(** ** Pure helpers: EscapeJson, FormatUnit, PassesFilters *)

Definition escape_char (c : ascii) : string :=
  if Ascii.eqb c chr_quote then String chr_backslash (str1 chr_quote)
  else if Ascii.eqb c chr_backslash then String chr_backslash (str1 chr_backslash)
  else if Ascii.eqb c chr_newline then String chr_backslash "n"
  else if Ascii.eqb c chr_return then String chr_backslash "r"
  else if Ascii.eqb c chr_tab then String chr_backslash "t"
  else str1 c.

Fixpoint EscapeJson (input : string) : string :=
  match input with
  | EmptyString => EmptyString
  | String c rest => escape_char c +:+ EscapeJson rest
  end.

Definition FormatUnit (unit : option Unit) : string :=
  match unit with
  | None => "null"
  | Some u =>
      let name := EscapeJson (GetName u) in
      let guid := GetGUID_ToString u in
      if IsCreature u then
        "{" +:+ key "type" +:+ quoted "creature" +:+ ","
            +:+ key "entry" +:+ fmt_int (GetEntry u) +:+ ","
            +:+ key "name" +:+ quoted name +:+ ","
            +:+ key "guid" +:+ quoted guid +:+ "}"
      else if IsPlayer u then
        "{" +:+ key "type" +:+ quoted "player" +:+ ","
            +:+ key "name" +:+ quoted name +:+ ","
            +:+ key "guid" +:+ quoted guid +:+ "}"
      else
        "{" +:+ key "type" +:+ quoted "unit" +:+ ","
            +:+ key "entry" +:+ fmt_int (GetEntry u) +:+ ","
            +:+ key "name" +:+ quoted name +:+ ","
            +:+ key "guid" +:+ quoted guid +:+ "}"
  end.

(** [distSq] of PassesFilters, every operation rounded to binary32. *)
Definition distSq (r : EventRecorder) (u : Unit) : Float32.t :=
  let dx := Float32.sub (GetPositionX u) (_recorderX r) in
  let dy := Float32.sub (GetPositionY u) (_recorderY r) in
  let dz := Float32.sub (GetPositionZ u) (_recorderZ r) in
  Float32.add (Float32.add (Float32.mul dx dx) (Float32.mul dy dy))
              (Float32.mul dz dz).

Definition PassesFilters (r : EventRecorder) (unit : option Unit) : bool :=
  match unit with
  | None => false
  | Some u =>
      if negb (_mapFilter r =? 0) && negb (GetMapId u =? _mapFilter r)
      then false
      else if Float32.gtb (_radius r) Float32.zero
              && (GetMapId u =? _recorderMapId r)
      then
        if Float32.gtb (distSq r u) (Float32.mul (_radius r) (_radius r))
        then false
        else true
      else true
  end.

(** GetSessionTime: whole milliseconds elapsed since [_sessionStart]
    ([duration_cast] truncates towards zero), later divided by 1000.0.
    The steady clock is read in nanoseconds. *)
Definition GetSessionTime (r : EventRecorder) (now : Z) : Z :=
  Z.quot (now - _sessionStart r) 1000000.

(** ** The world around the recorder *)

(** The options read through [sConfigMgr]. *)
Record Config := mkConfig {
  cfg_Enable : bool;
  cfg_OutputDir : string;
  cfg_MaxEvents : Z;
  cfg_DefaultRadius : Float32.t
}.

(** The diagnostics of the operational log, with their arguments. *)
Inductive LogEntry :=
| LogEnabled (outputDir : string) (maxEvents : Z)
| LogCreateDirFailed (outputDir message : string)
| LogOpenFailed (filename : string)
| LogStarted (name : string) (map : Z) (radius : Float32.t) (filename : string)
| LogStopped (name : string) (duration_ms count : Z)
| LogMaxEventLimit (maxEvents : Z) (name : string).

(** A file is the list of lines written to it since it was truncated;
    every line stands for the text followed by a newline. *)
Record World := mkWorld {
  recorder : EventRecorder;
  files : gmap string (list string);
  logs : list LogEntry;
  sConfigMgr : Config
}.

Definition world0 (cfg : Config) : World :=
  {| recorder := instance0; files := ∅; logs := []; sConfigMgr := cfg |}.

Definition with_recorder (r : EventRecorder) (w : World) : World :=
  {| recorder := r; files := files w; logs := logs w;
     sConfigMgr := sConfigMgr w |}.

Definition LOG (e : LogEntry) (w : World) : World :=
  {| recorder := recorder w; files := files w; logs := logs w ++ [e];
     sConfigMgr := sConfigMgr w |}.

Definition set_eventCount (n : Z) (r : EventRecorder) : EventRecorder :=
  {| _enabled := _enabled r; _active := _active r;
     _sessionName := _sessionName r; _outputDir := _outputDir r;
     _maxEvents := _maxEvents r; _eventCount := n;
     _mapFilter := _mapFilter r; _instanceFilter := _instanceFilter r;
     _radius := _radius r;
     _recorderX := _recorderX r; _recorderY := _recorderY r;
     _recorderZ := _recorderZ r; _recorderMapId := _recorderMapId r;
     _sessionStart := _sessionStart r; _outFile := _outFile r |}.

Definition set_outFile (f : ofstream) (r : EventRecorder) : EventRecorder :=
  {| _enabled := _enabled r; _active := _active r;
     _sessionName := _sessionName r; _outputDir := _outputDir r;
     _maxEvents := _maxEvents r; _eventCount := _eventCount r;
     _mapFilter := _mapFilter r; _instanceFilter := _instanceFilter r;
     _radius := _radius r;
     _recorderX := _recorderX r; _recorderY := _recorderY r;
     _recorderZ := _recorderZ r; _recorderMapId := _recorderMapId r;
     _sessionStart := _sessionStart r; _outFile := f |}.

(** *** std::ofstream operations *)

(** [open(filename, out | trunc)]: fails on a stream that is already
    open; otherwise the environment decides ([ok]).  Success truncates
    the file and clears the state flags, failure sets failbit. *)
Definition ofstream_open (filename : string) (ok : bool)
    (f : ofstream) (fs : gmap string (list string))
  : ofstream * gmap string (list string) :=
  match stream_path f with
  | Some _ => ({| stream_path := stream_path f; failbit := true |}, fs)
  | None =>
      if ok
      then ({| stream_path := Some filename; failbit := false |},
            <[filename := []]> fs)
      else ({| stream_path := None; failbit := true |}, fs)
  end.

(** [stream << line << "\n"; stream.flush()]: nothing is written unless
    the stream is open and good. *)
Definition ofstream_put (line : string)
    (f : ofstream) (fs : gmap string (list string))
  : gmap string (list string) :=
  match stream_path f with
  | Some p =>
      if failbit f then fs
      else <[p := default [] (fs !! p) ++ [line]]> fs
  | None => fs
  end.

(** [close()]: closing a stream that is not open sets failbit. *)
Definition ofstream_close (f : ofstream) : ofstream :=
  {| stream_path := None; failbit := failbit f || negb (is_open f) |}.

(** ** WriteEvent *)

Definition WriteEvent (jsonLine : string) (w : World) : World :=
  let r := recorder w in
  if negb (is_open (_outFile r)) then w
  else if _maxEvents r <=? _eventCount r then
    if _eventCount r =? _maxEvents r then
      let w1 := LOG (LogMaxEventLimit (_maxEvents r) (_sessionName r)) w in
      with_recorder (set_eventCount (uint32_incr (_eventCount r)) r) w1
    else w
  else
    {| recorder := set_eventCount (uint32_incr (_eventCount r)) r;
       files := ofstream_put jsonLine (_outFile r) (files w);
       logs := logs w;
       sConfigMgr := sConfigMgr w |}.

(** ** LoadConfig *)

Definition LoadConfig (w : World) : World :=
  let r := recorder w in
  let c := sConfigMgr w in
  let defaultRadius := cfg_DefaultRadius c in
  let r1 :=
    {| _enabled := cfg_Enable c; _active := _active r;
       _sessionName := _sessionName r; _outputDir := cfg_OutputDir c;
       _maxEvents := cfg_MaxEvents c; _eventCount := _eventCount r;
       _mapFilter := _mapFilter r; _instanceFilter := _instanceFilter r;
       _radius := if Float32.gtb defaultRadius Float32.zero
                  then defaultRadius else _radius r;
       _recorderX := _recorderX r; _recorderY := _recorderY r;
       _recorderZ := _recorderZ r; _recorderMapId := _recorderMapId r;
       _sessionStart := _sessionStart r; _outFile := _outFile r |} in
  let w1 := with_recorder r1 w in
  if cfg_Enable c
  then LOG (LogEnabled (cfg_OutputDir c) (cfg_MaxEvents c)) w1
  else w1.

(** ** Session management *)

(** What StartSession obtains from its environment: the outcome of
    [create_directories] (an error message on failure), whether the
    file can be opened, the [strftime] text of the wall clock and the
    reading of the steady clock. *)
Record StartEnv := mkStartEnv {
  create_directories_error : option string;
  open_ok : bool;
  timeBuf : string;
  start_now : Z
}.

Definition session_filename (outputDir sessionName timeBuf : string) : string :=
  outputDir +:+ "/" +:+ sessionName +:+ "_" +:+ timeBuf +:+ ".jsonl".

Definition startEvent (sessionName : string) (mapFilter : Z) (filename : string)
  : string :=
  "{" +:+ key "t" +:+ "0.000" +:+ ","
      +:+ key "event" +:+ quoted "record_start" +:+ ","
      +:+ key "session" +:+ quoted sessionName +:+ ","
      +:+ key "map" +:+ fmt_int mapFilter +:+ ","
      +:+ key "file" +:+ quoted filename +:+ "}".

Definition stopEvent (duration : Z) (sessionName : string) (eventCount : Z)
  : string :=
  "{" +:+ key "t" +:+ fmt_millis duration +:+ ","
      +:+ key "event" +:+ quoted "record_stop" +:+ ","
      +:+ key "session" +:+ quoted sessionName +:+ ","
      +:+ key "duration" +:+ fmt_millis duration +:+ ","
      +:+ key "events_captured" +:+ fmt_int eventCount +:+ "}".

Definition StartSession (sessionName : string) (player : option Unit)
    (mapFilter : Z) (radius : Float32.t) (env : StartEnv) (w : World)
  : bool * World :=
  let r := recorder w in
  if _active r then (false, w)
  else if negb (_enabled r) then (false, w)
  else
    match create_directories_error env with
    | Some message =>
        (false, LOG (LogCreateDirFailed (_outputDir r) message) w)
    | None =>
        let filename :=
          session_filename (_outputDir r) sessionName (timeBuf env) in
        let '(f, fs) :=
          ofstream_open filename (open_ok env) (_outFile r) (files w) in
        if negb (is_open f) then
          (false,
           LOG (LogOpenFailed filename)
             {| recorder := set_outFile f r; files := fs; logs := logs w;
                sConfigMgr := sConfigMgr w |})
        else
          let r1 :=
            {| _enabled := _enabled r; _active := true;
               _sessionName := sessionName; _outputDir := _outputDir r;
               _maxEvents := _maxEvents r; _eventCount := 0;
               _mapFilter :=
                 match player with
                 | Some p => if mapFilter =? 0 then GetMapId p else mapFilter
                 | None => mapFilter
                 end;
               _instanceFilter :=
                 match player with
                 | Some p => GetInstanceId p
                 | None => _instanceFilter r
                 end;
               _radius :=
                 if Float32.gtb radius Float32.zero then radius
                 else if Float32.leb (_radius r) Float32.zero
                      then cfg_DefaultRadius (sConfigMgr w)
                      else _radius r;
               _recorderX :=
                 match player with
                 | Some p => GetPositionX p | None => _recorderX r end;
               _recorderY :=
                 match player with
                 | Some p => GetPositionY p | None => _recorderY r end;
               _recorderZ :=
                 match player with
                 | Some p => GetPositionZ p | None => _recorderZ r end;
               _recorderMapId :=
                 match player with
                 | Some p => GetMapId p | None => _recorderMapId r end;
               _sessionStart := start_now env;
               _outFile := f |} in
          let w1 :=
            {| recorder := r1; files := fs; logs := logs w;
               sConfigMgr := sConfigMgr w |} in
          let w2 :=
            WriteEvent (startEvent (_sessionName r1) (_mapFilter r1) filename)
              w1 in
          (true,
           LOG (LogStarted (_sessionName r1) (_mapFilter r1) (_radius r1)
                  filename) w2)
    end.

Definition StopSession (now : Z) (w : World) : bool * World :=
  let r := recorder w in
  if negb (_active r) then (false, w)
  else
    let duration := GetSessionTime r now in
    let w1 := WriteEvent (stopEvent duration (_sessionName r) (_eventCount r)) w in
    let r1 := recorder w1 in
    let r2 :=
      {| _enabled := _enabled r1; _active := false;
         _sessionName := _sessionName r1; _outputDir := _outputDir r1;
         _maxEvents := _maxEvents r1; _eventCount := _eventCount r1;
         _mapFilter := 0; _instanceFilter := 0;
         _radius := Float32.zero;
         _recorderX := Float32.zero; _recorderY := Float32.zero;
         _recorderZ := Float32.zero; _recorderMapId := 0;
         _sessionStart := _sessionStart r1;
         _outFile := ofstream_close (_outFile r1) |} in
    (true,
     LOG (LogStopped (_sessionName r1) duration (_eventCount r1))
       (with_recorder r2 w1)).

Definition IsEnabled (w : World) : bool := _enabled (recorder w).

Definition IsActive (w : World) : bool := _active (recorder w).

Definition IsActiveForMap (mapId instanceId : Z) (w : World) : bool :=
  let r := recorder w in
  if negb (_active r) then false
  else if negb (_mapFilter r =? 0) && negb (_mapFilter r =? mapId) then false
  else if negb (_instanceFilter r =? 0)
          && negb (_instanceFilter r =? instanceId) then false
  else true.

(** ** Event recording

    Every Record* method takes the reading [now] of the steady clock
    that its GetSessionTime call observes. *)

(** The common head of every data line: [{"t":<s.mmm>,"event":"<kind>"]. *)
Definition envelope (t : Z) (kind : string) : string :=
  "{" +:+ key "t" +:+ fmt_millis t +:+ "," +:+ key "event" +:+ quoted kind.

Definition enter_combat_json (t : Z) (unit victim : option Unit) : string :=
  envelope t "enter_combat"
    +:+ "," +:+ key "source" +:+ FormatUnit unit
    +:+ "," +:+ key "target" +:+ FormatUnit victim +:+ "}".

Definition leave_combat_json (t : Z) (creature : option Unit) : string :=
  envelope t "leave_combat"
    +:+ "," +:+ key "source" +:+ FormatUnit creature +:+ "}".

Definition evade_json (t : Z) (unit : option Unit) (evadeReason : Z) : string :=
  envelope t "evade"
    +:+ "," +:+ key "source" +:+ FormatUnit unit
    +:+ "," +:+ key "reason" +:+ fmt_int evadeReason +:+ "}".

Definition death_json (t : Z) (unit killer : option Unit) : string :=
  envelope t "death"
    +:+ "," +:+ key "source" +:+ FormatUnit unit
    +:+ "," +:+ key "killer" +:+ FormatUnit killer +:+ "}".

Definition damage_json (t : Z) (attacker victim : option Unit) (damage : Z)
  : string :=
  envelope t "damage"
    +:+ "," +:+ key "source" +:+ FormatUnit attacker
    +:+ "," +:+ key "target" +:+ FormatUnit victim
    +:+ "," +:+ key "amount" +:+ fmt_int damage +:+ "}".

Definition heal_json (t : Z) (healer target : option Unit) (gain : Z) : string :=
  envelope t "heal"
    +:+ "," +:+ key "source" +:+ FormatUnit healer
    +:+ "," +:+ key "target" +:+ FormatUnit target
    +:+ "," +:+ key "amount" +:+ fmt_int gain +:+ "}".

(** [spellInfo && spellInfo->SpellName[0] ? EscapeJson(...) : "Unknown"] *)
Definition spellName_of (spellInfo : option SpellInfo) : string :=
  match spellInfo with
  | Some si =>
      match SpellName0 si with
      | Some n => EscapeJson n
      | None => "Unknown"
      end
  | None => "Unknown"
  end.

Definition spellId_of (spellInfo : option SpellInfo) : Z :=
  match spellInfo with Some si => Id si | None => 0 end.

Definition aura_apply_json (t : Z) (unit : option Unit)
    (spellId : Z) (spellName : string) : string :=
  envelope t "aura_apply"
    +:+ "," +:+ key "target" +:+ FormatUnit unit
    +:+ "," +:+ key "spell_id" +:+ fmt_int spellId
    +:+ "," +:+ key "spell_name" +:+ quoted spellName +:+ "}".

Definition aura_remove_json (t : Z) (unit : option Unit)
    (spellId : Z) (spellName : string) (removeMode : Z) : string :=
  envelope t "aura_remove"
    +:+ "," +:+ key "target" +:+ FormatUnit unit
    +:+ "," +:+ key "spell_id" +:+ fmt_int spellId
    +:+ "," +:+ key "spell_name" +:+ quoted spellName
    +:+ "," +:+ key "remove_mode" +:+ fmt_int removeMode +:+ "}".

Definition spell_cast_json (t : Z) (player : option Unit)
    (spellId : Z) (spellName : string) : string :=
  envelope t "spell_cast"
    +:+ "," +:+ key "source" +:+ FormatUnit player
    +:+ "," +:+ key "spell_id" +:+ fmt_int spellId
    +:+ "," +:+ key "spell_name" +:+ quoted spellName +:+ "}".

Definition RecordEnterCombat (unit victim : option Unit) (now : Z) (w : World)
  : World :=
  let r := recorder w in
  if negb (PassesFilters r unit) then w
  else WriteEvent (enter_combat_json (GetSessionTime r now) unit victim) w.

Definition RecordLeaveCombat (creature : option Unit) (now : Z) (w : World)
  : World :=
  let r := recorder w in
  if negb (PassesFilters r creature) then w
  else WriteEvent (leave_combat_json (GetSessionTime r now) creature) w.

Definition RecordEvade (unit : option Unit) (evadeReason : Z) (now : Z)
    (w : World) : World :=
  let r := recorder w in
  if negb (PassesFilters r unit) then w
  else WriteEvent (evade_json (GetSessionTime r now) unit evadeReason) w.

Definition RecordUnitDeath (unit killer : option Unit) (now : Z) (w : World)
  : World :=
  let r := recorder w in
  if negb (PassesFilters r unit) && negb (PassesFilters r killer) then w
  else WriteEvent (death_json (GetSessionTime r now) unit killer) w.

Definition RecordDamage (attacker victim : option Unit) (damage : Z) (now : Z)
    (w : World) : World :=
  let r := recorder w in
  if negb (PassesFilters r attacker) && negb (PassesFilters r victim) then w
  else WriteEvent (damage_json (GetSessionTime r now) attacker victim damage) w.

Definition RecordHeal (healer target : option Unit) (gain : Z) (now : Z)
    (w : World) : World :=
  let r := recorder w in
  if negb (PassesFilters r healer) && negb (PassesFilters r target) then w
  else WriteEvent (heal_json (GetSessionTime r now) healer target gain) w.

Definition RecordAuraApply (unit : option Unit) (aura : option Aura) (now : Z)
    (w : World) : World :=
  let r := recorder w in
  if negb (PassesFilters r unit) then w
  else
    match aura with
    | None => w
    | Some a =>
        let spellInfo := GetSpellInfo a in
        WriteEvent
          (aura_apply_json (GetSessionTime r now) unit
             (spellId_of spellInfo) (spellName_of spellInfo)) w
    end.

Definition RecordAuraRemove (unit : option Unit)
    (aurApp : option AuraApplication) (removeMode : Z) (now : Z) (w : World)
  : World :=
  let r := recorder w in
  if negb (PassesFilters r unit) then w
  else
    match aurApp with
    | None => w
    | Some app =>
        match GetBase app with
        | None => w
        | Some aura =>
            let spellInfo := GetSpellInfo aura in
            WriteEvent
              (aura_remove_json (GetSessionTime r now) unit
                 (spellId_of spellInfo) (spellName_of spellInfo) removeMode) w
        end
    end.

Definition RecordSpellCast (player : option Unit)
    (spellInfo : option SpellInfo) (now : Z) (w : World) : World :=
  let r := recorder w in
  if negb (PassesFilters r player) then w
  else
    match spellInfo with
    | None => w
    | Some si =>
        WriteEvent
          (spell_cast_json (GetSessionTime r now) player (Id si)
             (spellName_of (Some si))) w
    end.

(** ** Calls as data *)

(** One Record* call with its arguments. *)
Inductive RecordCall :=
| CallEnterCombat (unit victim : option Unit)
| CallLeaveCombat (creature : option Unit)
| CallEvade (unit : option Unit) (evadeReason : Z)
| CallUnitDeath (unit killer : option Unit)
| CallDamage (attacker victim : option Unit) (damage : Z)
| CallHeal (healer target : option Unit) (gain : Z)
| CallAuraApply (unit : option Unit) (aura : option Aura)
| CallAuraRemove (unit : option Unit) (aurApp : option AuraApplication)
    (removeMode : Z)
| CallSpellCast (player : option Unit) (spellInfo : option SpellInfo).

Definition record_call (c : RecordCall) (now : Z) (w : World) : World :=
  match c with
  | CallEnterCombat u v => RecordEnterCombat u v now w
  | CallLeaveCombat u => RecordLeaveCombat u now w
  | CallEvade u reason => RecordEvade u reason now w
  | CallUnitDeath u k => RecordUnitDeath u k now w
  | CallDamage a v d => RecordDamage a v d now w
  | CallHeal h t g => RecordHeal h t g now w
  | CallAuraApply u a => RecordAuraApply u a now w
  | CallAuraRemove u app mode => RecordAuraRemove u app mode now w
  | CallSpellCast p si => RecordSpellCast p si now w
  end.

(** A sequence of Record* calls, each with its clock reading. *)
Fixpoint record_calls (cs : list (RecordCall * Z)) (w : World) : World :=
  match cs with
  | [] => w
  | (c, now) :: rest => record_calls rest (record_call c now w)
  end.

(** The public operations, and a reload of the configuration (the
    world script calls LoadConfig after every configuration load). *)
Inductive Op :=
| OpStartSession (sessionName : string) (player : option Unit)
    (mapFilter : Z) (radius : Float32.t) (env : StartEnv)
| OpStopSession (now : Z)
| OpRecord (c : RecordCall) (now : Z)
| OpReloadConfig (cfg : Config).

Definition step (o : Op) (w : World) : World :=
  match o with
  | OpStartSession n p m rad env => snd (StartSession n p m rad env w)
  | OpStopSession now => snd (StopSession now w)
  | OpRecord c now => record_call c now w
  | OpReloadConfig cfg =>
      LoadConfig {| recorder := recorder w; files := files w;
                    logs := logs w; sConfigMgr := cfg |}
  end.

Definition run (os : list Op) (w : World) : World :=
  fold_left (fun w o => step o w) os w.

(** ** Admission and payload of a call

    [admits r c] tells whether the call [c] reaches WriteEvent in the
    recorder state [r] (the filter test and the null checks of its
    method); [line_of r cn] is the line it then hands to WriteEvent. *)

Definition admits (r : EventRecorder) (c : RecordCall) : bool :=
  match c with
  | CallEnterCombat u _ => PassesFilters r u
  | CallLeaveCombat u => PassesFilters r u
  | CallEvade u _ => PassesFilters r u
  | CallUnitDeath u k => PassesFilters r u || PassesFilters r k
  | CallDamage a v _ => PassesFilters r a || PassesFilters r v
  | CallHeal h t _ => PassesFilters r h || PassesFilters r t
  | CallAuraApply u a =>
      PassesFilters r u && match a with Some _ => true | None => false end
  | CallAuraRemove u app _ =>
      PassesFilters r u
      && match app with
         | Some ap => match GetBase ap with Some _ => true | None => false end
         | None => false
         end
  | CallSpellCast p si =>
      PassesFilters r p && match si with Some _ => true | None => false end
  end.

Definition line_of (r : EventRecorder) (cn : RecordCall * Z) : string :=
  let t := GetSessionTime r (snd cn) in
  match fst cn with
  | CallEnterCombat u v => enter_combat_json t u v
  | CallLeaveCombat u => leave_combat_json t u
  | CallEvade u reason => evade_json t u reason
  | CallUnitDeath u k => death_json t u k
  | CallDamage a v d => damage_json t a v d
  | CallHeal h tg g => heal_json t h tg g
  | CallAuraApply u a =>
      let si := match a with Some a' => GetSpellInfo a' | None => None end in
      aura_apply_json t u (spellId_of si) (spellName_of si)
  | CallAuraRemove u app mode =>
      let si := match app with
                | Some ap =>
                    match GetBase ap with
                    | Some a' => GetSpellInfo a'
                    | None => None
                    end
                | None => None
                end in
      aura_remove_json t u (spellId_of si) (spellName_of si) mode
  | CallSpellCast p si => spell_cast_json t p (spellId_of si) (spellName_of si)
  end.

(** The calls of a sequence that reach WriteEvent. *)
Definition admitted (r : EventRecorder) (cs : list (RecordCall * Z))
  : list (RecordCall * Z) :=
  List.filter (fun cn => admits r (fst cn)) cs.

(** ** Observers used to state the properties *)

(** The handle is open exactly when the session is active. *)
Definition Inv (w : World) : Prop :=
  _active (recorder w) = is_open (_outFile (recorder w)).

(** The lines of a file, none if it does not exist. *)
Definition file_lines (path : string) (w : World) : list string :=
  default [] (files w !! path).

Definition is_cap_diagnostic (e : LogEntry) : bool :=
  match e with LogMaxEventLimit _ _ => true | _ => false end.

Definition cap_diagnostics (l : list LogEntry) : nat :=
  length (List.filter is_cap_diagnostic l).

(** What a reader of the file finds as the value of the event member
    of a line: the text between the member's key with its opening quote
    and the next quote. *)
Fixpoint drop_prefix (p s : string) : option string :=
  match p, s with
  | EmptyString, _ => Some s
  | String a p', String b s' => if Ascii.eqb a b then drop_prefix p' s' else None
  | String _ _, EmptyString => None
  end.

Fixpoint find_after (marker s : string) : option string :=
  match drop_prefix marker s with
  | Some rest => Some rest
  | None =>
      match s with
      | EmptyString => None
      | String _ s' => find_after marker s'
      end
  end.

Fixpoint until_quote (s : string) : string :=
  match s with
  | EmptyString => EmptyString
  | String c s' =>
      if Ascii.eqb c chr_quote then EmptyString else String c (until_quote s')
  end.

Definition event_field (line : string) : option string :=
  until_quote <$> find_after (key "event" +:+ str1 chr_quote) line.

(** A data line is a line that is neither of the two synthetic ones. *)
Definition is_data_line (line : string) : bool :=
  match event_field line with
  | Some k => negb (String.eqb k "record_start" || String.eqb k "record_stop")
  | None => false
  end.

Definition data_lines (path : string) (w : World) : nat :=
  length (List.filter is_data_line (file_lines path w)).

(** The recorder writes to the file [p] through a good stream. *)
Definition writing_to (p : string) (w : World) : Prop :=
  stream_path (_outFile (recorder w)) = Some p
  /\ failbit (_outFile (recorder w)) = false.

(** The number of lines that still fit under the cap. *)
Definition room (r : EventRecorder) : nat :=
  Z.to_nat (_maxEvents r - _eventCount r).

(** ** JSON text

    The sibling escaping function of the repository,
    AppenderJsonl::JsonEscape (src/common/Logging/AppenderJsonl.cpp):
    besides the five characters EscapeJson knows it escapes backspace,
    form feed and every other character below 0x20. *)

(** One digit of [%x]. *)
Definition hex_digit (d : nat) : ascii :=
  if (d <? 10)%nat then ascii_of_nat (48 + d) else ascii_of_nat (87 + d).

Definition JsonEscape_char (c : ascii) : string :=
  if Ascii.eqb c chr_quote then String chr_backslash (str1 chr_quote)
  else if Ascii.eqb c chr_backslash then String chr_backslash (str1 chr_backslash)
  else if Ascii.eqb c chr_backspace then String chr_backslash "b"
  else if Ascii.eqb c chr_formfeed then String chr_backslash "f"
  else if Ascii.eqb c chr_newline then String chr_backslash "n"
  else if Ascii.eqb c chr_return then String chr_backslash "r"
  else if Ascii.eqb c chr_tab then String chr_backslash "t"
  else if (nat_of_ascii c <? 32)%nat then
    String chr_backslash
      ("u00" +:+ String (hex_digit (nat_of_ascii c / 16))
                   (str1 (hex_digit (nat_of_ascii c mod 16))))
  else str1 c.

Fixpoint JsonEscape (str : string) : string :=
  match str with
  | EmptyString => EmptyString
  | String c rest => JsonEscape_char c +:+ JsonEscape rest
  end.

(** The characters a JSON string may not contain unescaped (RFC 8259,
    section 7): the quote, the backslash and everything below 0x20. *)
Definition must_be_escaped (c : ascii) : bool :=
  Ascii.eqb c chr_quote || Ascii.eqb c chr_backslash
  || (nat_of_ascii c <? 32)%nat.

(** The characters that may appear nowhere in a JSON text, not even
    between tokens: the control characters other than tab, line feed
    and carriage return. *)
Definition forbidden_in_json_text (c : ascii) : bool :=
  (nat_of_ascii c <? 32)%nat
  && negb (Ascii.eqb c chr_tab || Ascii.eqb c chr_newline
           || Ascii.eqb c chr_return).

Fixpoint string_exists (f : ascii -> bool) (s : string) : bool :=
  match s with
  | EmptyString => false
  | String c rest => f c || string_exists f rest
  end.

Definition is_hex (c : ascii) : bool :=
  let n := nat_of_ascii c in
  ((48 <=? n) && (n <=? 57) || (97 <=? n) && (n <=? 102)
   || (65 <=? n) && (n <=? 70))%nat.

(** The character an escape letter stands for (the u escape apart). *)
Definition decode_escape (e : ascii) : option ascii :=
  if Ascii.eqb e chr_quote then Some chr_quote
  else if Ascii.eqb e chr_backslash then Some chr_backslash
  else if Ascii.eqb e "/" then Some "/"%char
  else if Ascii.eqb e "b" then Some chr_backspace
  else if Ascii.eqb e "f" then Some chr_formfeed
  else if Ascii.eqb e "n" then Some chr_newline
  else if Ascii.eqb e "r" then Some chr_return
  else if Ascii.eqb e "t" then Some chr_tab
  else None.

(** The text between the quotes of a JSON string is well formed. *)
Fixpoint json_string_body_ok (s : string) : bool :=
  match s with
  | EmptyString => true
  | String c rest =>
      if Ascii.eqb c chr_backslash then
        match rest with
        | String e rest' =>
            match decode_escape e with
            | Some _ => json_string_body_ok rest'
            | None =>
                if Ascii.eqb e "u" then
                  match rest' with
                  | String h1 (String h2 (String h3 (String h4 rest''))) =>
                      is_hex h1 && is_hex h2 && is_hex h3 && is_hex h4
                      && json_string_body_ok rest''
                  | _ => false
                  end
                else false
            end
        | EmptyString => false
        end
      else if must_be_escaped c then false
      else json_string_body_ok rest
  end.

(** What a reader decodes from the text between the quotes (a reader
    that tolerates raw control characters; u escapes are not needed for
    the output of EscapeJson and are refused). *)
Fixpoint json_unescape (s : string) : option string :=
  match s with
  | EmptyString => Some EmptyString
  | String c rest =>
      if Ascii.eqb c chr_backslash then
        match rest with
        | String e rest' =>
            match decode_escape e with
            | Some d => String d <$> json_unescape rest'
            | None => None
            end
        | EmptyString => None
        end
      else if Ascii.eqb c chr_quote then None
      else String c <$> json_unescape rest
  end.

(** A name EscapeJson handles completely: its only characters below
    0x20 are tab, line feed and carriage return. *)
Definition tame (s : string) : bool :=
  negb (string_exists forbidden_in_json_text s).

(** ** A concrete session

    The scenario of the specification: recording enabled, session boss1
    started by a game master standing at (100, 100, 50) on map 0 with
    radius 50. *)

Definition demo_config (maxEvents : Z) : Config :=
  {| cfg_Enable := true; cfg_OutputDir := "recordings";
     cfg_MaxEvents := maxEvents; cfg_DefaultRadius := Float32.zero |}.

Definition demo_env : StartEnv :=
  {| create_directories_error := None; open_ok := true;
     timeBuf := "20260101_120000"; start_now := 0 |}.

Definition demo_unit (name : string) (creature : bool) (x y z : Float32.t)
  : Unit :=
  {| GetName := name; GetGUID_ToString := "Unit-" +:+ name; GetEntry := 7;
     IsCreature := creature; IsPlayer := negb creature;
     GetMapId := 0; GetInstanceId := 0;
     GetPositionX := x; GetPositionY := y; GetPositionZ := z |}.

Definition demo_at (name : string) (creature : bool) (x y z : Z) : Unit :=
  demo_unit name creature (Float32.of_Z x) (Float32.of_Z y) (Float32.of_Z z).

Definition demo_gm : Unit := demo_at "GM" false 100 100 50.

(** The world after the configuration was loaded. *)
Definition demo_world (maxEvents : Z) : World :=
  LoadConfig (world0 (demo_config maxEvents)).

Definition demo_start (maxEvents : Z) : bool * World :=
  StartSession "boss1" (Some demo_gm) 0 (Float32.of_Z 50) demo_env
    (demo_world maxEvents).

Definition demo_session (maxEvents : Z) : World := snd (demo_start maxEvents).

Definition demo_file : string := "recordings/boss1_20260101_120000.jsonl".

(** Attacker A at distance 10 from the anchor, victim B at distance 200. *)
Definition demo_hit : RecordCall :=
  CallDamage (Some (demo_at "A" false 110 100 50))
             (Some (demo_at "B" true 300 100 50)) 500.

(** Attacker C at distance 300, victim D at distance 400. *)
Definition demo_miss : RecordCall :=
  CallDamage (Some (demo_at "C" false 400 100 50))
             (Some (demo_at "D" true 500 100 50)) 10.

(** Two admitted damage events, one and two milliseconds into the session. *)
Definition demo_two_hits : list (RecordCall * Z) :=
  [(demo_hit, 1000000); (demo_hit, 2000000)].

(** The end-to-end scenario: one admitted damage event, one rejected. *)
Definition demo_hit_and_miss : list (RecordCall * Z) :=
  [(demo_hit, 1000000); (demo_miss, 2000000)].

(** *** Exact geometry

    The coordinates are binary32 numbers, hence rationals; these are the
    squared Euclidean distance to the anchor and the squared radius
    without any rounding. *)

Definition exact_distSq (r : EventRecorder) (u : Unit) : Q :=
  let dx := (Float32.to_Q (GetPositionX u) - Float32.to_Q (_recorderX r))%Q in
  let dy := (Float32.to_Q (GetPositionY u) - Float32.to_Q (_recorderY r))%Q in
  let dz := (Float32.to_Q (GetPositionZ u) - Float32.to_Q (_recorderZ r))%Q in
  (dx * dx + dy * dy + dz * dz)%Q.

Definition exact_radiusSq (r : EventRecorder) : Q :=
  (Float32.to_Q (_radius r) * Float32.to_Q (_radius r))%Q.

(** A creature on map 0 at (150, 100 + 1/128, 50): its distance to the
    anchor (100, 100, 50) is the square root of 2500 + 1/16384, a little
    more than the radius 50. *)
Definition demo_just_outside : Unit :=
  demo_unit "E" true (Float32.of_Z 150) (Float32.of_scaled 12801 (-7))
    (Float32.of_Z 50).

(** Creatures at distance exactly 50 and exactly 51. *)
Definition demo_on_boundary : Unit := demo_at "F" true 150 100 50.
Definition demo_outside : Unit := demo_at "G" true 151 100 50.

(** The same start with radius 19315/256 = 75.44921875, and a creature
    at offset (11589/256, 15452/256, 0) from the anchor: a scaled
    (3, 4, 5) triangle, at distance exactly the radius. *)
Definition demo_wide_session : World :=
  snd (StartSession "boss1" (Some demo_gm) 0 (Float32.of_scaled 19315 (-8))
         demo_env (demo_world 100000)).

Definition demo_on_wide_boundary : Unit :=
  demo_unit "H" true (Float32.of_scaled (100 * 256 + 11589) (-8))
    (Float32.of_scaled (100 * 256 + 15452) (-8)) (Float32.of_Z 50).

(** The session of the scenario after the configuration was reloaded
    with Enable turned off. *)
Definition demo_disabled_session : World :=
  step (OpReloadConfig
          {| cfg_Enable := false; cfg_OutputDir := "recordings";
             cfg_MaxEvents := 100000; cfg_DefaultRadius := Float32.zero |})
       (demo_session 100000).

(** A creature whose name starts with a backspace character. *)
Definition demo_backspace_name : string := String chr_backspace "oss".

Definition demo_backspace_boss : Unit :=
  demo_unit demo_backspace_name true (Float32.of_Z 110) (Float32.of_Z 100)
    (Float32.of_Z 50).

(** The session with cap 2 after two admitted damage events, and after
    the stop that follows. *)
Definition demo_capped : World := record_calls demo_two_hits (demo_session 2).

Definition demo_capped_stopped : World := snd (StopSession 5000000 demo_capped).

(** The scenario after its two calls, and after its stop. *)
Definition demo_scenario : World :=
  record_calls demo_hit_and_miss (demo_session 100000).

Definition demo_scenario_stopped : World :=
  snd (StopSession 5000000 demo_scenario).

(** The session of the scenario stopped before any call. *)
Definition demo_stopped : World :=
  snd (StopSession 5000000 (demo_session 100000)).

(** ** Reading a line back

    What a reader of the file does with a line: find a member by its
    key, take the string up to its closing quote, decode the escapes. *)

(** The text of a JSON string from just after its opening quote up to
    its closing quote, escapes left as they are. *)
Fixpoint string_body (s : string) : option string :=
  match s with
  | EmptyString => None
  | String c rest =>
      if Ascii.eqb c chr_quote then Some EmptyString
      else if Ascii.eqb c chr_backslash then
        match rest with
        | String e rest' =>
            (fun b => String c (String e b)) <$> string_body rest'
        | EmptyString => None
        end
      else String c <$> string_body rest
  end.

(** The decoded value of the first string member with key [k]. *)
Definition string_member (k : string) (text : string) : option string :=
  match find_after (key k +:+ str1 chr_quote) text with
  | Some rest =>
      match string_body rest with
      | Some body => json_unescape body
      | None => None
      end
  | None => None
  end.

Definition hex_value (c : ascii) : option nat :=
  let n := nat_of_ascii c in
  if ((48 <=? n) && (n <=? 57))%nat then Some (n - 48)%nat
  else if ((97 <=? n) && (n <=? 102))%nat then Some (n - 87)%nat
  else if ((65 <=? n) && (n <=? 70))%nat then Some (n - 55)%nat
  else None.

(** A decoder that also understands the u escape, for code points
    below 256 (one byte). *)
Fixpoint json_decode (s : string) : option string :=
  match s with
  | EmptyString => Some EmptyString
  | String c rest =>
      if Ascii.eqb c chr_backslash then
        match rest with
        | String e rest' =>
            match decode_escape e with
            | Some d => String d <$> json_decode rest'
            | None =>
                if Ascii.eqb e "u" then
                  match rest' with
                  | String h1 (String h2 (String h3 (String h4 rest''))) =>
                      match hex_value h1, hex_value h2, hex_value h3,
                            hex_value h4 with
                      | Some a, Some b, Some c', Some d =>
                          let n := (((a * 16 + b) * 16 + c') * 16 + d)%nat in
                          if (n <? 256)%nat
                          then String (ascii_of_nat n) <$> json_decode rest''
                          else None
                      | _, _, _, _ => None
                      end
                  | _ => None
                  end
                else None
            end
        | EmptyString => None
        end
      else if must_be_escaped c then None
      else String c <$> json_decode rest
  end.

(** The string holds no quote character. *)
Definition no_quote (s : string) : bool :=
  negb (string_exists (Ascii.eqb chr_quote) s).

(** The event kind each Record* method writes in its format string. *)
Definition kind_of (c : RecordCall) : string :=
  match c with
  | CallEnterCombat _ _ => "enter_combat"
  | CallLeaveCombat _ => "leave_combat"
  | CallEvade _ _ => "evade"
  | CallUnitDeath _ _ => "death"
  | CallDamage _ _ _ => "damage"
  | CallHeal _ _ _ => "heal"
  | CallAuraApply _ _ => "aura_apply"
  | CallAuraRemove _ _ _ => "aura_remove"
  | CallSpellCast _ _ => "spell_cast"
  end.

Definition set_instanceFilter (i : Z) (r : EventRecorder) : EventRecorder :=
  {| _enabled := _enabled r; _active := _active r;
     _sessionName := _sessionName r; _outputDir := _outputDir r;
     _maxEvents := _maxEvents r; _eventCount := _eventCount r;
     _mapFilter := _mapFilter r; _instanceFilter := i;
     _radius := _radius r;
     _recorderX := _recorderX r; _recorderY := _recorderY r;
     _recorderZ := _recorderZ r; _recorderMapId := _recorderMapId r;
     _sessionStart := _sessionStart r; _outFile := _outFile r |}.

(** A unit as it looks from another instance of its map. *)
Definition in_instance (i : Z) (u : Unit) : Unit :=
  {| GetName := GetName u; GetGUID_ToString := GetGUID_ToString u;
     GetEntry := GetEntry u; IsCreature := IsCreature u;
     IsPlayer := IsPlayer u; GetMapId := GetMapId u; GetInstanceId := i;
     GetPositionX := GetPositionX u; GetPositionY := GetPositionY u;
     GetPositionZ := GetPositionZ u |}.

(** ** The hooks (EventRecorderHooks.cpp)

    Every hook returns at once unless IsActive, then calls its Record*
    method.  [Spell::GetSpellInfo] gives the spell information of a
    cast; the remove mode of an aura is cast to uint8. *)

Record Spell := mkSpell { Spell_GetSpellInfo : option SpellInfo }.

Definition OnDamage (attacker victim : option Unit) (damage : Z) (now : Z)
    (w : World) : World :=
  if negb (IsActive w) then w else RecordDamage attacker victim damage now w.

Definition OnHeal (healer reciever : option Unit) (gain : Z) (now : Z)
    (w : World) : World :=
  if negb (IsActive w) then w else RecordHeal healer reciever gain now w.

Definition OnAuraApply (unit : option Unit) (aura : option Aura) (now : Z)
    (w : World) : World :=
  if negb (IsActive w) then w else RecordAuraApply unit aura now w.

Definition OnAuraRemove (unit : option Unit) (aurApp : option AuraApplication)
    (mode : Z) (now : Z) (w : World) : World :=
  if negb (IsActive w) then w
  else RecordAuraRemove unit aurApp (mode mod 256) now w.

Definition OnUnitEnterCombat (unit victim : option Unit) (now : Z) (w : World)
  : World :=
  if negb (IsActive w) then w else RecordEnterCombat unit victim now w.

Definition OnUnitEnterEvadeMode (unit : option Unit) (evadeReason : Z)
    (now : Z) (w : World) : World :=
  if negb (IsActive w) then w else RecordEvade unit evadeReason now w.

Definition OnUnitDeath (unit killer : option Unit) (now : Z) (w : World)
  : World :=
  if negb (IsActive w) then w else RecordUnitDeath unit killer now w.

Definition OnPlayerSpellCast (player : option Unit) (spell : option Spell)
    (now : Z) (w : World) : World :=
  if negb (IsActive w) then w
  else
    match spell with
    | None => w
    | Some sp => RecordSpellCast player (Spell_GetSpellInfo sp) now w
    end.

(** One invocation of a hook by the host. *)
Inductive HookCall :=
| HookDamage (attacker victim : option Unit) (damage : Z)
| HookHeal (healer reciever : option Unit) (gain : Z)
| HookAuraApply (unit : option Unit) (aura : option Aura)
| HookAuraRemove (unit : option Unit) (aurApp : option AuraApplication)
    (mode : Z)
| HookUnitEnterCombat (unit victim : option Unit)
| HookUnitEnterEvadeMode (unit : option Unit) (evadeReason : Z)
| HookUnitDeath (unit killer : option Unit)
| HookPlayerSpellCast (player : option Unit) (spell : option Spell).

Definition run_hook (h : HookCall) (now : Z) (w : World) : World :=
  match h with
  | HookDamage a v d => OnDamage a v d now w
  | HookHeal a v g => OnHeal a v g now w
  | HookAuraApply u a => OnAuraApply u a now w
  | HookAuraRemove u app mode => OnAuraRemove u app mode now w
  | HookUnitEnterCombat u v => OnUnitEnterCombat u v now w
  | HookUnitEnterEvadeMode u reason => OnUnitEnterEvadeMode u reason now w
  | HookUnitDeath u k => OnUnitDeath u k now w
  | HookPlayerSpellCast p sp => OnPlayerSpellCast p sp now w
  end.

(** The Record* call a hook makes once past its guards, if any. *)
Definition call_of_hook (h : HookCall) : option RecordCall :=
  match h with
  | HookDamage a v d => Some (CallDamage a v d)
  | HookHeal a v g => Some (CallHeal a v g)
  | HookAuraApply u a => Some (CallAuraApply u a)
  | HookAuraRemove u app mode => Some (CallAuraRemove u app (mode mod 256))
  | HookUnitEnterCombat u v => Some (CallEnterCombat u v)
  | HookUnitEnterEvadeMode u reason => Some (CallEvade u reason)
  | HookUnitDeath u k => Some (CallUnitDeath u k)
  | HookPlayerSpellCast p sp =>
      match sp with
      | Some s => Some (CallSpellCast p (Spell_GetSpellInfo s))
      | None => None
      end
  end.

(** ** AppenderJsonl helpers (src/common/Logging/AppenderJsonl.cpp) *)

(** [s.compare(0, n, lit) == 0]: the first [n] characters of [s] (all
    of [s] when it is shorter) are exactly [lit]. *)
Definition compare_0 (n : nat) (lit s : string) : bool :=
  String.eqb (substring 0 n s) lit.

(** [s.find(c)]: the position of the first [c], if any. *)
Fixpoint find_char (c : ascii) (s : string) : option nat :=
  match s with
  | EmptyString => None
  | String x rest =>
      if Ascii.eqb x c then Some 0%nat
      else match find_char c rest with
           | Some n => Some (S n)
           | None => None
           end
  end.

Definition MapLoggerToCategory (loggerType : string) : string :=
  if compare_0 7 "scripts" loggerType then "script"
  else if compare_0 6 "spells" loggerType then "spell"
  else if compare_0 8 "entities" loggerType
          || compare_0 9 "creatures" loggerType then "creature"
  else if compare_0 3 "sql" loggerType then "db"
  else if compare_0 7 "network" loggerType then "network"
  else if compare_0 4 "maps" loggerType then "map"
  else if compare_0 6 "server" loggerType then "server"
  else
    match find_char "." loggerType with
    | Some dot => substring 0 dot loggerType
    | None => loggerType
    end.

(** [s.c_str()] read as a C string: the characters before the first NUL. *)
Fixpoint c_str (s : string) : string :=
  match s with
  | EmptyString => EmptyString
  | String c rest =>
      if Ascii.eqb c "000" then EmptyString else String c (c_str rest)
  end.

(** [isdigit] in the C locale. *)
Definition isdigit (c : ascii) : bool :=
  ((48 <=? nat_of_ascii c) && (nat_of_ascii c <=? 57))%nat.

(** The loop that skips spaces, colons, equal signs and tabs. *)
Fixpoint skip_separators (s : string) : string :=
  match s with
  | EmptyString => EmptyString
  | String c rest =>
      if Ascii.eqb c " " || Ascii.eqb c ":" || Ascii.eqb c "="
         || Ascii.eqb c chr_tab
      then skip_separators rest
      else s
  end.

(** The loop that runs over the digits. *)
Fixpoint take_digits (s : string) : string :=
  match s with
  | EmptyString => EmptyString
  | String c rest =>
      if isdigit c then String c (take_digits rest) else EmptyString
  end.

(** FindNumberAfter: [Some out] when it returns true and assigns [out],
    [None] when it returns false and leaves [out] alone.  [strstr] gives
    the first occurrence of the pattern, a string literal at every call
    site. *)
Definition FindNumberAfter (text pattern : string) : option string :=
  match find_after pattern (c_str text) with
  | None => None
  | Some pos =>
      match skip_separators pos with
      | String c rest =>
          if isdigit c then Some (take_digits (String c rest)) else None
      | EmptyString => None
      end
  end.








Definition all_digits (s : string) : bool :=
  negb (string_exists (fun c => negb (isdigit c)) s).

(** ** The record command (src/server/scripts/Commands/cs_record.cpp)

    The chat handler's output is the list of messages it sends.  The
    text GetSessionInfo formats is kept by its arguments.  Every handler
    of the command returns true. *)

Inductive SessionInfo :=
| NoActiveSession
| ActiveSession (name : string) (map eventCount maxEvents elapsed_ms : Z)
    (radius : Float32.t).

Definition GetSessionInfo (now : Z) (w : World) : SessionInfo :=
  let r := recorder w in
  if negb (_active r) then NoActiveSession
  else ActiveSession (_sessionName r) (_mapFilter r) (_eventCount r)
         (_maxEvents r) (GetSessionTime r now) (_radius r).

Inductive ChatMessage :=
| ChatText (text : string)
| ChatSessionInfo (info : SessionInfo).

(** [isspace] in the C locale. *)
Definition isspace (c : ascii) : bool :=
  Ascii.eqb c " " || ((9 <=? nat_of_ascii c) && (nat_of_ascii c <=? 13))%nat.

(** The strings that successive [stream >> token] extract from an
    [istringstream]: the maximal runs of characters that are not white
    space.  [cur] is the token being read. *)
Fixpoint tokens_from (cur : option string) (s : string) : list string :=
  match s with
  | EmptyString => match cur with Some t => [t] | None => [] end
  | String c rest =>
      if isspace c then
        match cur with
        | Some t => t :: tokens_from None rest
        | None => tokens_from None rest
        end
      else
        tokens_from
          (Some match cur with
                | Some t => t +:+ str1 c
                | None => str1 c
                end) rest
  end.

Definition tokens (s : string) : list string := tokens_from None s.

Inductive FlagError :=
| InvalidMapId (mapStr : string)
| InvalidRadius (radiusStr : string).

Section RecordCommand.

(** [Acore::StringTo<uint32>] and [Acore::StringTo<float>]. *)
Variable StringTo_uint32 : string -> option Z.
Variable StringTo_float : string -> option Float32.t.

(** The loop over the optional flags, on the tokens that follow the
    session name. *)
Fixpoint parse_flags (toks : list string) (mapFilter : Z)
    (radius : Float32.t) : FlagError + Z * Float32.t :=
  match toks with
  | [] => inr (mapFilter, radius)
  | token :: rest =>
      if String.eqb token "--map" then
        match rest with
        | mapStr :: rest' =>
            match StringTo_uint32 mapStr with
            | Some mapVal => parse_flags rest' mapVal radius
            | None => inl (InvalidMapId mapStr)
            end
        | [] => inr (mapFilter, radius)
        end
      else if String.eqb token "--radius" then
        match rest with
        | radiusStr :: rest' =>
            match StringTo_float radiusStr with
            | Some radiusVal => parse_flags rest' mapFilter radiusVal
            | None => inl (InvalidRadius radiusStr)
            end
        | [] => inr (mapFilter, radius)
        end
      else parse_flags rest mapFilter radius
  end.

(** [now_info] is the clock reading of the GetSessionInfo call that
    follows a successful start. *)
Definition HandleRecordStartCommand (args : string) (player : option Unit)
    (env : StartEnv) (now_info : Z) (w : World)
  : list ChatMessage * World :=
  if negb (IsEnabled w) then
    ([ChatText "Event Recorder is disabled. Set EventRecorder.Enable = 1 in worldserver.conf."], w)
  else if IsActive w then
    ([ChatText "A recording session is already active. Stop it first with .record stop"], w)
  else if String.eqb args EmptyString then
    ([ChatText "Usage: .record start <session-name> [--map <mapId>] [--radius <float>]"], w)
  else
    let toks := tokens args in
    let sessionName := match toks with t :: _ => t | [] => EmptyString end in
    match parse_flags (tail toks) 0 Float32.zero with
    | inl (InvalidMapId mapStr) =>
        ([ChatText ("Invalid map ID: " +:+ mapStr)], w)
    | inl (InvalidRadius radiusStr) =>
        ([ChatText ("Invalid radius: " +:+ radiusStr)], w)
    | inr (mapFilter, radius) =>
        let '(ok, w1) :=
          StartSession sessionName player mapFilter radius env w in
        if ok then
          ([ChatText ("Recording started: '" +:+ sessionName +:+ "'");
            ChatSessionInfo (GetSessionInfo now_info w1)], w1)
        else ([ChatText "Failed to start recording session."], w1)
    end.

End RecordCommand.

(** [now_info] is the clock reading of GetSessionInfo, [now] that of
    StopSession. *)
Definition HandleRecordStopCommand (now_info now : Z) (w : World)
  : list ChatMessage * World :=
  if negb (IsActive w) then ([ChatText "No active recording session."], w)
  else
    let info := GetSessionInfo now_info w in
    let '(ok, w1) := StopSession now w in
    if ok then ([ChatText "Recording stopped."; ChatSessionInfo info], w1)
    else ([ChatText "Failed to stop recording session."], w1).

Definition HandleRecordStatusCommand (now : Z) (w : World)
  : list ChatMessage * World :=
  if negb (IsEnabled w) then ([ChatText "Event Recorder is disabled."], w)
  else ([ChatSessionInfo (GetSessionInfo now w)], w).

(** * Properties *)

(** ** WriteEvent, case by case *)

Lemma uint32_incr_small (c : Z) :
  0 <= c < uint32_modulus - 1 -> uint32_incr c = c + 1.
Proof.
  intros H. unfold uint32_incr. apply Z.mod_small. lia.
Qed.

(** At the largest uint32 the increment wraps to zero. *)
Lemma uint32_incr_wraps : uint32_incr (uint32_modulus - 1) = 0.
Proof. reflexivity. Qed.

Lemma WriteEvent_closed (l : string) (w : World) :
  is_open (_outFile (recorder w)) = false -> WriteEvent l w = w.
Proof.
  intros H. unfold WriteEvent. by rewrite H.
Qed.

Lemma WriteEvent_below (l : string) (w : World) (p : string) :
  stream_path (_outFile (recorder w)) = Some p ->
  failbit (_outFile (recorder w)) = false ->
  _eventCount (recorder w) < _maxEvents (recorder w) ->
  WriteEvent l w =
    {| recorder :=
         set_eventCount (uint32_incr (_eventCount (recorder w))) (recorder w);
       files := <[p := file_lines p w ++ [l]]> (files w);
       logs := logs w;
       sConfigMgr := sConfigMgr w |}.
Proof.
  intros Hp Hf Hc. unfold WriteEvent, is_open, ofstream_put, file_lines.
  rewrite Hp, Hf. simpl.
  destruct (_maxEvents (recorder w) <=? _eventCount (recorder w)) eqn:E.
  - apply Z.leb_le in E. lia.
  - reflexivity.
Qed.

Lemma WriteEvent_at_cap (l : string) (w : World) :
  is_open (_outFile (recorder w)) = true ->
  _eventCount (recorder w) = _maxEvents (recorder w) ->
  WriteEvent l w =
    with_recorder
      (set_eventCount (uint32_incr (_eventCount (recorder w))) (recorder w))
      (LOG (LogMaxEventLimit (_maxEvents (recorder w))
              (_sessionName (recorder w))) w).
Proof.
  intros Ho Hc. unfold WriteEvent. rewrite Ho. simpl.
  rewrite Hc, Z.leb_refl, Z.eqb_refl. reflexivity.
Qed.

Lemma WriteEvent_above (l : string) (w : World) :
  _maxEvents (recorder w) < _eventCount (recorder w) ->
  WriteEvent l w = w.
Proof.
  intros Hc. unfold WriteEvent.
  destruct (negb (is_open (_outFile (recorder w)))); [done|].
  destruct (_maxEvents (recorder w) <=? _eventCount (recorder w)) eqn:E.
  - destruct (_eventCount (recorder w) =? _maxEvents (recorder w)) eqn:E2.
    + apply Z.eqb_eq in E2. lia.
    + reflexivity.
  - apply Z.leb_gt in E. lia.
Qed.

(** WriteEvent touches nothing of the recorder but the counter. *)
Lemma WriteEvent_recorder (l : string) (w : World) :
  recorder (WriteEvent l w) =
    set_eventCount (_eventCount (recorder (WriteEvent l w))) (recorder w).
Proof.
  unfold WriteEvent.
  destruct (recorder w) eqn:Er.
  repeat (case_match; simpl; rewrite ?Er; try reflexivity).
Qed.

Lemma WriteEvent_config (l : string) (w : World) :
  sConfigMgr (WriteEvent l w) = sConfigMgr w.
Proof.
  unfold WriteEvent. repeat (case_match; simpl; try reflexivity).
Qed.

(** Every Record* method is its admission test followed by WriteEvent. *)
Lemma record_call_spec (c : RecordCall) (now : Z) (w : World) :
  record_call c now w =
    if admits (recorder w) c
    then WriteEvent (line_of (recorder w) (c, now)) w
    else w.
Proof.
  destruct c; simpl;
    unfold RecordEnterCombat, RecordLeaveCombat, RecordEvade, RecordUnitDeath,
      RecordDamage, RecordHeal, RecordAuraApply, RecordAuraRemove,
      RecordSpellCast, line_of; simpl;
    repeat match goal with
      | |- context [PassesFilters ?r ?u] => destruct (PassesFilters r u)
      end; simpl; try reflexivity.
  - destruct aura; reflexivity.
  - destruct aurApp as [app|]; [destruct (GetBase app)|]; reflexivity.
  - destruct spellInfo; reflexivity.
Qed.

Lemma admits_set_eventCount (n : Z) (r : EventRecorder) (c : RecordCall) :
  admits (set_eventCount n r) c = admits r c.
Proof. reflexivity. Qed.

Lemma line_of_set_eventCount (n : Z) (r : EventRecorder) (cn : RecordCall * Z) :
  line_of (set_eventCount n r) cn = line_of r cn.
Proof. reflexivity. Qed.

(** ** A run of Record* calls during a session *)

Lemma set_eventCount_same (r : EventRecorder) :
  set_eventCount (_eventCount r) r = r.
Proof. by destruct r. Qed.

(** Past the cap (the marker has been advanced) calls do nothing. *)
Lemma record_calls_above (cs : list (RecordCall * Z)) (w : World) :
  _maxEvents (recorder w) < _eventCount (recorder w) ->
  record_calls cs w = w.
Proof.
  intros H. induction cs as [|[c now] cs IH]; simpl; [done|].
  rewrite record_call_spec.
  destruct (admits (recorder w) c); [rewrite WriteEvent_above by done|]; done.
Qed.

Lemma admitted_cons (r : EventRecorder) (c : RecordCall) (now : Z)
    (cs : list (RecordCall * Z)) :
  admitted r ((c, now) :: cs) =
    if admits r c then (c, now) :: admitted r cs else admitted r cs.
Proof. reflexivity. Qed.

Section Session.
Variable p : string.

(** What a run of calls leaves behind: the first [room] admitted calls
    are written in order, the next one triggers the diagnostic and
    advances the counter past the cap, the others leave no trace. *)
Lemma record_calls_session (cs : list (RecordCall * Z)) :
  forall w : World,
    writing_to p w ->
    0 <= _eventCount (recorder w) ->
    _maxEvents (recorder w) < uint32_modulus - 1 ->
    let r := recorder w in
    let adm := admitted r cs in
    let w' := record_calls cs w in
    file_lines p w' = file_lines p w ++ map (line_of r) (take (room r) adm)
    /\ logs w' =
         logs w ++
           (if (_eventCount r <=? _maxEvents r)
               && (room r <? length adm)%nat
            then [LogMaxEventLimit (_maxEvents r) (_sessionName r)]
            else [])
    /\ recorder w' =
         set_eventCount
           (if _eventCount r <=? _maxEvents r
            then _eventCount r + Z.of_nat (min (length adm) (S (room r)))
            else _eventCount r) r
    /\ sConfigMgr w' = sConfigMgr w.
Proof.
  induction cs as [|[c now] cs IH]; intros w [Hp Hf] Hc HM; cbv zeta.
  { cbn [admitted List.filter record_calls length]. rewrite take_nil.
    cbn [map]. rewrite app_nil_r.
    replace (room (recorder w) <? 0)%nat with false
      by (symmetry; apply Nat.ltb_ge; lia).
    rewrite andb_false_r, app_nil_r, Z.add_0_r.
    destruct (_ <=? _); by rewrite set_eventCount_same. }
  cbn [record_calls]. rewrite record_call_spec, admitted_cons.
  destruct (admits (recorder w) c) eqn:Ha; [|by apply IH].
  destruct (Z.lt_trichotomy (_eventCount (recorder w)) (_maxEvents (recorder w)))
    as [Hlt|[Heq|Hgt]].
  - (* below the cap: the line is written *)
    rewrite (WriteEvent_below _ _ p) by done.
    rewrite uint32_incr_small by lia.
    set (w1 := {| recorder := _ |}).
    destruct (IH w1) as (Hfl & Hlg & Hrec & Hcfg);
      [done | simpl; lia | simpl; lia |].
    assert (Hroom : room (recorder w) = S (room (recorder w1))).
    { unfold room. simpl. lia. }
    assert (E1 : (_eventCount (recorder w) <=? _maxEvents (recorder w)) = true)
      by (apply Z.leb_le; lia).
    assert (E2 : (_eventCount (recorder w1) <=? _maxEvents (recorder w1)) = true)
      by (apply Z.leb_le; simpl; lia).
    rewrite E2 in Hlg, Hrec. rewrite Hroom, E1.
    change (admitted (recorder w1) cs) with (admitted (recorder w) cs) in *.
    change (line_of (recorder w1)) with (line_of (recorder w)) in *.
    split; [|split; [|split]].
    + rewrite Hfl. unfold file_lines at 1. cbn [files w1].
      rewrite lookup_insert_eq. cbn [default take map]. unfold id.
      by rewrite <- app_assoc.
    + rewrite Hlg. reflexivity.
    + rewrite Hrec.
      change (set_eventCount ?a (recorder w1))
        with (set_eventCount a (recorder w)).
      f_equal. cbn [length recorder w1 set_eventCount _eventCount].
      rewrite <- Nat.succ_min_distr. lia.
    + exact Hcfg.
  - (* at the cap: the diagnostic, and the marker *)
    assert (Ho : is_open (_outFile (recorder w)) = true)
      by (unfold is_open; by rewrite Hp).
    rewrite WriteEvent_at_cap by done.
    rewrite uint32_incr_small by lia.
    rewrite record_calls_above by (simpl; lia).
    assert (Hroom : room (recorder w) = 0%nat) by (unfold room; lia).
    rewrite Hroom, Heq, Z.leb_refl. simpl.
    rewrite app_nil_r. repeat split.
    f_equal. lia.
  - (* past the cap *)
    rewrite WriteEvent_above by done.
    rewrite record_calls_above by done.
    assert (Hroom : room (recorder w) = 0%nat) by (unfold room; lia).
    assert (E1 : (_eventCount (recorder w) <=? _maxEvents (recorder w)) = false)
      by (apply Z.leb_gt; lia).
    rewrite Hroom, E1. simpl.
    by rewrite !app_nil_r, set_eventCount_same.
Qed.
End Session.

(** ** A successful StartSession *)

Lemma is_open_false_path (f : ofstream) :
  is_open f = false -> stream_path f = None.
Proof. unfold is_open. by destruct (stream_path f). Qed.

(** Under the invariant a successful start leaves a session that writes
    to its own fresh file, which holds the record_start line when the
    cap allows one line, and the counter stands at one. *)
Lemma StartSession_success (name : string) (player : option Unit)
    (mapFilter : Z) (radius : Float32.t) (env : StartEnv) (w0 w1 : World) :
  Inv w0 ->
  StartSession name player mapFilter radius env w0 = (true, w1) ->
  1 <= _maxEvents (recorder w0) < uint32_modulus - 1 ->
  let f := session_filename (_outputDir (recorder w0)) name (timeBuf env) in
  writing_to f w1
  /\ _active (recorder w1) = true
  /\ _eventCount (recorder w1) = 1
  /\ _maxEvents (recorder w1) = _maxEvents (recorder w0)
  /\ _sessionName (recorder w1) = name
  /\ _sessionStart (recorder w1) = start_now env
  /\ file_lines f w1 = [startEvent name (_mapFilter (recorder w1)) f]
  /\ cap_diagnostics (logs w1) = cap_diagnostics (logs w0).
Proof.
  intros HInv H HM f. unfold StartSession in H. unfold Inv in HInv.
  destruct (_active (recorder w0)) eqn:Ea; [discriminate|].
  destruct (_enabled (recorder w0)); [|discriminate]. simpl in H.
  destruct (create_directories_error env); [discriminate|].
  unfold ofstream_open in H.
  rewrite (is_open_false_path _ (eq_sym HInv)) in H.
  destruct (open_ok env); [|discriminate]. simpl in H.
  rewrite (WriteEvent_below _ _ f) in H by (simpl; first [done | lia]).
  injection H as <-. cbn -[startEvent f].
  repeat split; try reflexivity.
  - unfold file_lines. cbn -[startEvent f].
    by rewrite lookup_insert_eq, lookup_insert_eq.
  - unfold cap_diagnostics. rewrite List.filter_app. simpl.
    by rewrite app_nil_r.
Qed.

(** ** The cap (C1) *)

(** C1, as amended: the record_start line is written through WriteEvent
    and takes one place under the cap.  In a session started with cap
    1 <= maxEvents < 2^32 - 1, the file holds the record_start line
    followed by the lines of the first maxEvents - 1 admitted calls and
    nothing else; the cap diagnostic is emitted exactly once, by the
    admitted call number maxEvents, and never again; the handle stays
    open and the session active. *)
Theorem cap_counts_record_start (name : string) (player : option Unit)
    (mapFilter : Z) (radius : Float32.t) (env : StartEnv) (w0 w1 : World)
    (cs : list (RecordCall * Z)) :
  Inv w0 ->
  StartSession name player mapFilter radius env w0 = (true, w1) ->
  1 <= _maxEvents (recorder w0) < uint32_modulus - 1 ->
  let M := _maxEvents (recorder w0) in
  let f := session_filename (_outputDir (recorder w0)) name (timeBuf env) in
  let adm := admitted (recorder w1) cs in
  let w2 := record_calls cs w1 in
  file_lines f w2 =
    startEvent name (_mapFilter (recorder w1)) f
      :: map (line_of (recorder w1)) (take (Z.to_nat (M - 1)) adm)
  /\ cap_diagnostics (logs w2) =
       (cap_diagnostics (logs w0)
        + if (M <=? Z.of_nat (length adm))%Z then 1 else 0)%nat
  /\ is_open (_outFile (recorder w2)) = true
  /\ _active (recorder w2) = true.
Proof.
  intros HInv HS HM M f adm w2.
  destruct (StartSession_success _ _ _ _ _ _ _ HInv HS HM)
    as (Hw & Hact & Hcnt & Hmax & Hname & Hst & Hfile & Hdiag).
  fold f in Hw, Hfile.
  destruct (record_calls_session f cs w1 Hw) as (Hfl & Hlg & Hrec & _);
    [lia | lia |].
  fold w2 adm in Hfl, Hlg, Hrec.
  assert (Hroom : room (recorder w1) = Z.to_nat (M - 1)).
  { unfold room, M. rewrite Hcnt, Hmax. reflexivity. }
  rewrite Hroom in *. rewrite Hfile in Hfl.
  split; [exact Hfl|]. split; [|split].
  - rewrite Hlg. unfold cap_diagnostics. rewrite List.filter_app, length_app.
    fold (cap_diagnostics (logs w1)). rewrite Hdiag. f_equal.
    rewrite Hcnt, Hmax. fold M.
    replace (1 <=? M) with true by (symmetry; apply Z.leb_le; lia).
    cbn [andb].
    destruct (Z.to_nat (M - 1) <? length adm)%nat eqn:E1;
      destruct (M <=? Z.of_nat (length adm)) eqn:E2; try reflexivity.
    + apply Nat.ltb_lt in E1. apply Z.leb_gt in E2. lia.
    + apply Nat.ltb_ge in E1. apply Z.leb_le in E2. lia.
  - rewrite Hrec. cbn [_outFile set_eventCount].
    destruct Hw as [Hp _]. unfold is_open. by rewrite Hp.
  - rewrite Hrec. exact Hact.
Qed.

Lemma demo_world_Inv (maxEvents : Z) : Inv (demo_world maxEvents).
Proof. reflexivity. Qed.

Lemma cap_counts_record_start_witness :
  Inv (demo_world 2)
  /\ demo_start 2 = (true, demo_session 2)
  /\ 1 <= 2 < uint32_modulus - 1
  /\ file_lines demo_file demo_capped =
       [startEvent "boss1" 0 demo_file;
        line_of (recorder (demo_session 2)) (demo_hit, 1000000)]
  /\ cap_diagnostics (logs demo_capped) = 1%nat.
Proof.
  assert (H1 : Inv (demo_world 2)) by reflexivity.
  assert (H2 : demo_start 2 = (true, demo_session 2)) by reflexivity.
  assert (H3 : 1 <= _maxEvents (recorder (demo_world 2)) < uint32_modulus - 1)
    by (vm_compute; split; [discriminate | reflexivity]).
  pose proof (cap_counts_record_start _ _ _ _ _ _ _ demo_two_hits H1 H2 H3)
    as (Hf & Hd & _).
  split; [exact H1|]. split; [exact H2|]. split; [exact H3|].
  split; [exact Hf | exact Hd].
Defined.

(** C1 as stated fails: with cap 2, two admitted damage events leave one
    data line, not two (the record_start line took the first place). *)
Lemma cap_two_events_one_data_line :
  demo_start 2 = (true, demo_session 2)
  /\ _maxEvents (recorder (demo_session 2)) = 2
  /\ admitted (recorder (demo_session 2)) demo_two_hits = demo_two_hits
  /\ data_lines demo_file demo_capped = 1%nat
  /\ Z.of_nat (data_lines demo_file demo_capped)
     <> _maxEvents (recorder (demo_session 2)).
Proof.
  vm_compute. repeat split; discriminate.
Qed.

(** ** StopSession *)

Lemma StopSession_inactive (now : Z) (w : World) :
  _active (recorder w) = false -> StopSession now w = (false, w).
Proof.
  intros H. unfold StopSession. by rewrite H.
Qed.

(** Whatever the counter, stopping an active session succeeds, closes
    the handle, marks the session inactive and resets every filter. *)
Lemma StopSession_active (now : Z) (w : World) :
  _active (recorder w) = true ->
  let r' := recorder (snd (StopSession now w)) in
  fst (StopSession now w) = true
  /\ _active r' = false
  /\ is_open (_outFile r') = false
  /\ _mapFilter r' = 0 /\ _instanceFilter r' = 0
  /\ _radius r' = Float32.zero
  /\ _recorderX r' = Float32.zero /\ _recorderY r' = Float32.zero
  /\ _recorderZ r' = Float32.zero /\ _recorderMapId r' = 0.
Proof.
  intros H. unfold StopSession. rewrite H. simpl. repeat split.
Qed.

(** Below the cap the record_stop line is appended, and it carries the
    value of the counter on entry. *)
Lemma StopSession_below (now : Z) (w : World) (p : string) :
  _active (recorder w) = true ->
  writing_to p w ->
  _eventCount (recorder w) < _maxEvents (recorder w) ->
  file_lines p (snd (StopSession now w)) =
    file_lines p w ++
      [stopEvent (GetSessionTime (recorder w) now) (_sessionName (recorder w))
         (_eventCount (recorder w))].
Proof.
  intros Ha [Hp Hf] Hc. unfold StopSession. rewrite Ha. cbn [negb snd].
  rewrite (WriteEvent_below _ _ p) by done.
  unfold file_lines at 1. cbn [files LOG with_recorder].
  by rewrite lookup_insert_eq.
Qed.

(** Once the cap is reached no line is written by StopSession. *)
Lemma StopSession_at_or_above_cap (now : Z) (w : World) :
  _active (recorder w) = true ->
  _maxEvents (recorder w) <= _eventCount (recorder w) ->
  files (snd (StopSession now w)) = files w.
Proof.
  intros Ha Hc. unfold StopSession. rewrite Ha. cbn [negb snd].
  unfold WriteEvent.
  destruct (negb (is_open (_outFile (recorder w)))); [reflexivity|].
  destruct (_maxEvents (recorder w) <=? _eventCount (recorder w)) eqn:E;
    [|apply Z.leb_gt in E; lia].
  destruct (_eventCount (recorder w) =? _maxEvents (recorder w)); reflexivity.
Qed.

(** WriteEvent never closes the handle and never ends the session. *)
Lemma WriteEvent_keeps_session (l : string) (w : World) :
  _outFile (recorder (WriteEvent l w)) = _outFile (recorder w)
  /\ _active (recorder (WriteEvent l w)) = _active (recorder w).
Proof.
  rewrite WriteEvent_recorder. split; reflexivity.
Qed.

(** C2, evaluated where it fails: with cap 2, the second admitted event
    reaches the cap; StopSession then succeeds, closes the handle,
    resets the filters and marks the session inactive, but the file ends
    with the one data line: no record_stop line is written. *)
Theorem stop_at_cap_writes_no_record_stop :
  _active (recorder demo_capped) = true
  /\ is_open (_outFile (recorder demo_capped)) = true
  /\ _maxEvents (recorder demo_capped) < _eventCount (recorder demo_capped)
  /\ fst (StopSession 5000000 demo_capped) = true
  /\ _active (recorder demo_capped_stopped) = false
  /\ is_open (_outFile (recorder demo_capped_stopped)) = false
  /\ file_lines demo_file demo_capped_stopped =
       [startEvent "boss1" 0 demo_file;
        line_of (recorder (demo_session 2)) (demo_hit, 1000000)]
  /\ List.filter
       (fun l => bool_decide (event_field l = Some "record_stop"%string))
       (file_lines demo_file demo_capped_stopped) = [].
Proof.
  vm_compute. repeat split.
Qed.

(** ** The counter and events_captured (C3) *)

(** C3, as amended: the counter counts every line written through
    WriteEvent, the record_start line included, and is advanced once
    more by the cap marker.  After a run of calls of which k are
    admitted, in a session with cap 1 <= maxEvents < 2^32 - 1, the
    counter is 1 + min k maxEvents; when the cap is not reached
    (1 + k < maxEvents) StopSession succeeds and appends a record_stop
    line whose events_captured is 1 + k, the number of lines written
    before it. *)
Theorem events_captured_is_lines_written (name : string)
    (player : option Unit) (mapFilter : Z) (radius : Float32.t)
    (env : StartEnv) (w0 w1 : World) (cs : list (RecordCall * Z)) (now : Z) :
  Inv w0 ->
  StartSession name player mapFilter radius env w0 = (true, w1) ->
  1 <= _maxEvents (recorder w0) < uint32_modulus - 1 ->
  let M := _maxEvents (recorder w0) in
  let f := session_filename (_outputDir (recorder w0)) name (timeBuf env) in
  let adm := admitted (recorder w1) cs in
  let k := Z.of_nat (length adm) in
  let w2 := record_calls cs w1 in
  _eventCount (recorder w2) = 1 + Z.min k M
  /\ (1 + k < M ->
      fst (StopSession now w2) = true
      /\ file_lines f (snd (StopSession now w2)) =
           startEvent name (_mapFilter (recorder w1)) f
             :: map (line_of (recorder w1)) adm
             ++ [stopEvent (GetSessionTime (recorder w1) now) name (1 + k)]).
Proof.
  intros HInv HS HM M f adm k w2.
  destruct (StartSession_success _ _ _ _ _ _ _ HInv HS HM)
    as (Hw & Hact & Hcnt & Hmax & Hname & Hst & Hfile & Hdiag).
  fold f in Hw, Hfile.
  destruct (record_calls_session f cs w1 Hw) as (Hfl & Hlg & Hrec & _);
    [lia | lia |].
  fold w2 adm in Hfl, Hlg, Hrec.
  assert (Hroom : room (recorder w1) = Z.to_nat (M - 1)).
  { unfold room, M. rewrite Hcnt, Hmax. reflexivity. }
  rewrite Hroom, Hcnt, Hmax in Hrec. fold M in Hrec.
  replace (1 <=? M) with true in Hrec by (symmetry; apply Z.leb_le; lia).
  assert (Hc2 : _eventCount (recorder w2) = 1 + Z.min k M).
  { rewrite Hrec. cbn [_eventCount set_eventCount]. unfold k. lia. }
  split; [exact Hc2|]. intros Hk.
  assert (Ha2 : _active (recorder w2) = true) by (rewrite Hrec; exact Hact).
  assert (Hw2 : writing_to f w2).
  { unfold writing_to. rewrite Hrec. exact Hw. }
  split; [by apply StopSession_active|].
  rewrite (StopSession_below now w2 f Ha2 Hw2)
    by (rewrite Hc2; rewrite Hrec; cbn [_maxEvents set_eventCount]; lia).
  rewrite Hfl, Hfile, Hroom, Hc2.
  rewrite take_ge by (unfold k in Hk; lia).
  rewrite Z.min_l by lia.
  rewrite Hrec at 1 2.
  cbn [_sessionName _sessionStart set_eventCount GetSessionTime].
  unfold GetSessionTime. rewrite Hname. reflexivity.
Qed.

Lemma events_captured_is_lines_written_witness :
  Inv (demo_world 100000)
  /\ demo_start 100000 = (true, demo_session 100000)
  /\ 1 <= 100000 < uint32_modulus - 1
  /\ _eventCount (recorder demo_scenario) = 2.
Proof.
  assert (H1 : Inv (demo_world 100000)) by reflexivity.
  assert (H2 : demo_start 100000 = (true, demo_session 100000)) by reflexivity.
  assert (H3 : 1 <= _maxEvents (recorder (demo_world 100000))
               < uint32_modulus - 1)
    by (vm_compute; split; [discriminate | reflexivity]).
  pose proof (events_captured_is_lines_written _ _ _ _ _ _ _
                demo_hit_and_miss 5000000 H1 H2 H3) as (Hc & _).
  split; [exact H1|]. split; [exact H2|]. split; [exact H3|].
  exact Hc.
Defined.

(** C3 as stated fails: in the end-to-end scenario (one damage event
    admitted, one rejected) the record_stop line reports
    events_captured 2, not 1. *)
Lemma scenario_events_captured_is_two :
  admitted (recorder (demo_session 100000)) demo_hit_and_miss
    = [(demo_hit, 1000000)]
  /\ file_lines demo_file demo_scenario_stopped =
       [startEvent "boss1" 0 demo_file;
        line_of (recorder (demo_session 100000)) (demo_hit, 1000000);
        stopEvent 5 "boss1" 2]
  /\ stopEvent 5 "boss1" 2 <> stopEvent 5 "boss1" 1.
Proof.
  vm_compute. repeat split. discriminate.
Qed.

(** ** The filter (C4) *)

(** C4, as amended: for a session with radius R > 0 whose map filter
    admits the anchor's map, an entity on the anchor's map is admitted
    exactly when the squared distance computed in single precision
    (every subtraction, product and sum rounded) is not greater than the
    single-precision product R * R; an entity on another map is never
    subjected to the radius test, only the map-filter test decides. *)
Theorem radius_test_on_rounded_squares (r : EventRecorder) (u : Unit) :
  Float32.gtb (_radius r) Float32.zero = true ->
  _mapFilter r = 0 \/ _mapFilter r = _recorderMapId r ->
  (GetMapId u = _recorderMapId r ->
   PassesFilters r (Some u) =
     negb (Float32.gtb (distSq r u) (Float32.mul (_radius r) (_radius r))))
  /\ (GetMapId u <> _recorderMapId r ->
      PassesFilters r (Some u) =
        (_mapFilter r =? 0) || (GetMapId u =? _mapFilter r)).
Proof.
  intros HR HM. unfold PassesFilters. rewrite HR. split; intros Hmap.
  - rewrite Hmap, Z.eqb_refl.
    destruct HM as [-> | ->]; simpl.
    + by destruct (Float32.gtb _ _).
    + rewrite Z.eqb_refl, andb_false_r. by destruct (Float32.gtb _ _).
  - apply Z.eqb_neq in Hmap. rewrite Hmap. simpl.
    destruct (_mapFilter r =? 0), (GetMapId u =? _mapFilter r); reflexivity.
Qed.

Lemma radius_test_on_rounded_squares_witness :
  Float32.gtb (_radius (recorder (demo_session 100000))) Float32.zero = true
  /\ _mapFilter (recorder (demo_session 100000)) = 0
  /\ PassesFilters (recorder (demo_session 100000)) (Some demo_on_boundary)
     = true
  /\ PassesFilters (recorder (demo_session 100000)) (Some demo_outside)
     = false.
Proof.
  assert (H1 : Float32.gtb (_radius (recorder (demo_session 100000)))
                 Float32.zero = true) by reflexivity.
  assert (H2 : _mapFilter (recorder (demo_session 100000)) = 0) by reflexivity.
  pose proof (radius_test_on_rounded_squares _ demo_on_boundary H1
                (or_introl H2)) as [Hb _].
  pose proof (radius_test_on_rounded_squares _ demo_outside H1
                (or_introl H2)) as [Ho _].
  split; [exact H1|]. split; [exact H2|]. split.
  - rewrite Hb by reflexivity. reflexivity.
  - rewrite Ho by reflexivity. reflexivity.
Defined.

(** C4 as stated fails: the creature at (150, 100 + 1/128, 50) is on the
    anchor's map, strictly farther from the anchor than the radius
    (2500 + 1/16384 > 2500), and admitted: in single precision
    2500 + 1/16384 rounds to 2500. *)
Lemma just_outside_is_admitted :
  Float32.gtb (_radius (recorder (demo_session 100000))) Float32.zero = true
  /\ _mapFilter (recorder (demo_session 100000)) = 0
  /\ GetMapId demo_just_outside = _recorderMapId (recorder (demo_session 100000))
  /\ (exact_radiusSq (recorder (demo_session 100000))
      < exact_distSq (recorder (demo_session 100000)) demo_just_outside)%Q
  /\ PassesFilters (recorder (demo_session 100000)) (Some demo_just_outside)
     = true.
Proof.
  vm_compute. repeat split.
Qed.

(** The rounding cuts both ways: a creature at distance exactly the
    radius (a scaled 3-4-5 triangle) is rejected when the rounded sum of
    squares exceeds the rounded square of the radius. *)
Lemma on_boundary_is_rejected :
  Float32.gtb (_radius (recorder demo_wide_session)) Float32.zero = true
  /\ GetMapId demo_on_wide_boundary = _recorderMapId (recorder demo_wide_session)
  /\ (exact_distSq (recorder demo_wide_session) demo_on_wide_boundary
      == exact_radiusSq (recorder demo_wide_session))%Q
  /\ PassesFilters (recorder demo_wide_session) (Some demo_on_wide_boundary)
     = false.
Proof.
  vm_compute. repeat split.
Qed.

(** ** Starting while a session is active (C5) *)

(** C5: while a session is active StartSession, whatever its arguments
    and whatever the environment answers, returns failure and leaves the
    world as it was: the recorder (name, counter, start instant, filters,
    anchor, handle), the files and the log. *)
Theorem StartSession_while_active (name : string) (player : option Unit)
    (mapFilter : Z) (radius : Float32.t) (env : StartEnv) (w : World) :
  IsActive w = true ->
  StartSession name player mapFilter radius env w = (false, w).
Proof.
  unfold IsActive, StartSession. by intros ->.
Qed.

Lemma StartSession_while_active_witness :
  IsActive (demo_session 100000) = true
  /\ StartSession "second" None 571 (Float32.of_Z 10) demo_env
       (demo_session 100000)
     = (false, demo_session 100000).
Proof.
  assert (H : IsActive (demo_session 100000) = true) by reflexivity.
  split; [exact H|].
  exact (StartSession_while_active "second" None 571 (Float32.of_Z 10)
           demo_env (demo_session 100000) H).
Defined.

(** ** The Enable option (C6) *)

Lemma record_call_closed (c : RecordCall) (now : Z) (w : World) :
  is_open (_outFile (recorder w)) = false -> record_call c now w = w.
Proof.
  intros H. rewrite record_call_spec.
  destruct (admits (recorder w) c); [by apply WriteEvent_closed | done].
Qed.

Lemma record_call_below (c : RecordCall) (now : Z) (w : World) (p : string) :
  writing_to p w ->
  admits (recorder w) c = true ->
  _eventCount (recorder w) < _maxEvents (recorder w) ->
  file_lines p (record_call c now w) =
    file_lines p w ++ [line_of (recorder w) (c, now)]
  /\ _eventCount (recorder (record_call c now w)) =
       uint32_incr (_eventCount (recorder w)).
Proof.
  intros [Hp Hf] Ha Hc. rewrite record_call_spec, Ha.
  rewrite (WriteEvent_below _ _ p) by done.
  split; [|reflexivity].
  unfold file_lines at 1. cbn [files]. by rewrite lookup_insert_eq.
Qed.

(** C6, as amended: the Enable option gates StartSession only.  When
    IsEnabled is false, StartSession is a no-op that returns failure;
    StopSession and the Record* calls never read the option: with no
    session active StopSession returns failure and Record* calls change
    nothing, but a session that is still active is stopped by
    StopSession, which returns success, and keeps recording until
    then (an admitted call below the cap appends its line and advances
    the counter). *)
Theorem Enable_gates_StartSession_only (w : World) :
  IsEnabled w = false ->
  (forall name player mapFilter radius env,
      StartSession name player mapFilter radius env w = (false, w))
  /\ (forall now, IsActive w = false -> StopSession now w = (false, w))
  /\ (forall c now, Inv w -> IsActive w = false -> record_call c now w = w)
  /\ (forall now, IsActive w = true ->
        fst (StopSession now w) = true
        /\ IsActive (snd (StopSession now w)) = false)
  /\ (forall c now p,
        writing_to p w ->
        admits (recorder w) c = true ->
        _eventCount (recorder w) < _maxEvents (recorder w) ->
        file_lines p (record_call c now w) =
          file_lines p w ++ [line_of (recorder w) (c, now)]
        /\ _eventCount (recorder (record_call c now w)) =
             uint32_incr (_eventCount (recorder w))).
Proof.
  unfold IsEnabled, IsActive. intros He. repeat apply conj.
  - intros. unfold StartSession. rewrite He.
    by destruct (_active (recorder w)).
  - intros now Ha. by apply StopSession_inactive.
  - intros c now HInv Ha. apply record_call_closed.
    unfold Inv in HInv. by rewrite <- HInv.
  - intros now Ha.
    destruct (StopSession_active now w Ha) as (H1 & H2 & _). by split.
  - intros c now p. apply record_call_below.
Qed.

Lemma Enable_gates_StartSession_only_witness :
  IsEnabled demo_disabled_session = false
  /\ StartSession "again" None 0 Float32.zero demo_env demo_disabled_session
     = (false, demo_disabled_session)
  /\ fst (StopSession 5000000 demo_disabled_session) = true.
Proof.
  assert (H : IsEnabled demo_disabled_session = false) by reflexivity.
  pose proof (Enable_gates_StartSession_only demo_disabled_session H)
    as (Hstart & _ & _ & Hstop & _).
  split; [exact H|]. split.
  - apply Hstart.
  - apply Hstop. reflexivity.
Defined.

(** C6 as stated fails: after the configuration was reloaded with Enable
    off during the session of the scenario, IsEnabled is false, yet
    RecordDamage still writes its line and advances the counter, and
    StopSession returns success. *)
Lemma disabled_session_still_records :
  IsEnabled demo_disabled_session = false
  /\ IsActive demo_disabled_session = true
  /\ file_lines demo_file (record_call demo_hit 1000000 demo_disabled_session) =
       file_lines demo_file demo_disabled_session
         ++ [line_of (recorder demo_disabled_session) (demo_hit, 1000000)]
  /\ _eventCount (recorder demo_disabled_session) = 1
  /\ _eventCount
       (recorder (record_call demo_hit 1000000 demo_disabled_session)) = 2
  /\ fst (StopSession 5000000 demo_disabled_session) = true.
Proof.
  vm_compute. repeat split.
Qed.

(** ** Admission by either entity, and absent entities (C8) *)

Lemma app_singleton_neq {A : Type} (l : list A) (x : A) : l ++ [x] <> l.
Proof.
  intros H. apply (f_equal length) in H. rewrite length_app in H.
  simpl in H. lia.
Qed.

(** At or past the cap a Record* call writes to no file. *)
Lemma record_call_at_or_above_cap (c : RecordCall) (now : Z) (w : World) :
  _maxEvents (recorder w) <= _eventCount (recorder w) ->
  files (record_call c now w) = files w.
Proof.
  intros Hc. rewrite record_call_spec.
  destruct (admits (recorder w) c); [|reflexivity].
  unfold WriteEvent.
  destruct (negb (is_open (_outFile (recorder w)))); [reflexivity|].
  destruct (_maxEvents (recorder w) <=? _eventCount (recorder w)) eqn:E;
    [|apply Z.leb_gt in E; lia].
  destruct (_eventCount (recorder w) =? _maxEvents (recorder w)); reflexivity.
Qed.

(** In a session that is writing, a Record* call appends its line
    exactly when the counter is below the cap and the call is admitted. *)
Lemma record_call_lines (c : RecordCall) (now : Z) (w : World) (p : string) :
  writing_to p w ->
  file_lines p (record_call c now w) =
    file_lines p w ++
      (if (_eventCount (recorder w) <? _maxEvents (recorder w))
          && admits (recorder w) c
       then [line_of (recorder w) (c, now)] else []).
Proof.
  intros Hw.
  destruct (_eventCount (recorder w) <? _maxEvents (recorder w)) eqn:Hc.
  - apply Z.ltb_lt in Hc. destruct (admits (recorder w) c) eqn:Ha.
    + by destruct (record_call_below c now w p Hw Ha Hc).
    + rewrite record_call_spec, Ha. cbn [andb]. by rewrite app_nil_r.
  - apply Z.ltb_ge in Hc. cbn [andb]. rewrite app_nil_r.
    unfold file_lines. by rewrite record_call_at_or_above_cap.
Qed.

(** C8, as amended: in a session that is writing (handle open and
    good), RecordDamage writes a line iff the counter is below the cap
    and the attacker or the victim passes the filter, and
    RecordUnitDeath iff the counter is below the cap and the victim or
    the killer passes; at or past the cap neither writes a line,
    whoever passes.  A null entity never passes; and where the event is
    admitted through the other entity the null one appears in the
    record as the marker null. *)
Theorem damage_and_death_admit_on_either (w : World) (p : string)
    (a v : option Unit) (damage now : Z) :
  writing_to p w ->
  let r := recorder w in
  let t := GetSessionTime r now in
  PassesFilters r None = false
  /\ FormatUnit None = "null"%string
  /\ file_lines p (RecordDamage a v damage now w) =
       file_lines p w ++
         (if (_eventCount r <? _maxEvents r)
             && (PassesFilters r a || PassesFilters r v)
          then [damage_json t a v damage] else [])
  /\ (file_lines p (RecordDamage a v damage now w) <> file_lines p w
      <-> _eventCount r < _maxEvents r
          /\ (PassesFilters r a = true \/ PassesFilters r v = true))
  /\ file_lines p (RecordUnitDeath a v now w) =
       file_lines p w ++
         (if (_eventCount r <? _maxEvents r)
             && (PassesFilters r a || PassesFilters r v)
          then [death_json t a v] else [])
  /\ (file_lines p (RecordUnitDeath a v now w) <> file_lines p w
      <-> _eventCount r < _maxEvents r
          /\ (PassesFilters r a = true \/ PassesFilters r v = true))
  /\ damage_json t None v damage =
       (envelope t "damage"
          +:+ "," +:+ key "source" +:+ "null"
          +:+ "," +:+ key "target" +:+ FormatUnit v
          +:+ "," +:+ key "amount" +:+ fmt_int damage +:+ "}")%string
  /\ damage_json t a None damage =
       (envelope t "damage"
          +:+ "," +:+ key "source" +:+ FormatUnit a
          +:+ "," +:+ key "target" +:+ "null"
          +:+ "," +:+ key "amount" +:+ fmt_int damage +:+ "}")%string
  /\ death_json t None v =
       (envelope t "death"
          +:+ "," +:+ key "source" +:+ "null"
          +:+ "," +:+ key "killer" +:+ FormatUnit v +:+ "}")%string
  /\ death_json t a None =
       (envelope t "death"
          +:+ "," +:+ key "source" +:+ FormatUnit a
          +:+ "," +:+ key "killer" +:+ "null" +:+ "}")%string.
Proof.
  intros Hw r t.
  assert (Hdmg : file_lines p (RecordDamage a v damage now w) =
            file_lines p w ++
              (if (_eventCount r <? _maxEvents r)
                  && (PassesFilters r a || PassesFilters r v)
               then [damage_json t a v damage] else [])).
  { exact (record_call_lines (CallDamage a v damage) now w p Hw). }
  assert (Hdth : file_lines p (RecordUnitDeath a v now w) =
            file_lines p w ++
              (if (_eventCount r <? _maxEvents r)
                  && (PassesFilters r a || PassesFilters r v)
               then [death_json t a v] else [])).
  { exact (record_call_lines (CallUnitDeath a v) now w p Hw). }
  assert (Hiff : forall (l : string) (ls : list string),
            ls = file_lines p w ++
                   (if (_eventCount r <? _maxEvents r)
                       && (PassesFilters r a || PassesFilters r v)
                    then [l] else [])
            -> (ls <> file_lines p w
                <-> _eventCount r < _maxEvents r
                    /\ (PassesFilters r a = true \/ PassesFilters r v = true))).
  { intros l ls ->. rewrite <- orb_true_iff, <- Z.ltb_lt, <- andb_true_iff.
    destruct ((_eventCount r <? _maxEvents r)
              && (PassesFilters r a || PassesFilters r v)).
    - split; [done|]. intros _. apply app_singleton_neq.
    - rewrite app_nil_r. split; [done | discriminate]. }
  split; [reflexivity|]. split; [reflexivity|].
  split; [exact Hdmg|]. split; [exact (Hiff _ _ Hdmg)|].
  split; [exact Hdth|]. split; [exact (Hiff _ _ Hdth)|].
  repeat split.
Qed.

Lemma damage_and_death_admit_on_either_witness :
  writing_to demo_file (demo_session 100000)
  /\ file_lines demo_file
       (RecordDamage (Some demo_on_boundary) None 500 1000000
          (demo_session 100000)) =
       file_lines demo_file (demo_session 100000)
         ++ [damage_json 1 (Some demo_on_boundary) None 500]
  /\ file_lines demo_file
       (RecordDamage None None 500 1000000 (demo_session 100000)) =
       file_lines demo_file (demo_session 100000).
Proof.
  assert (H1 : writing_to demo_file (demo_session 100000))
    by (split; reflexivity).
  pose proof (damage_and_death_admit_on_either (demo_session 100000) demo_file
                (Some demo_on_boundary) None 500 1000000 H1)
    as (_ & _ & Hd & _).
  pose proof (damage_and_death_admit_on_either (demo_session 100000) demo_file
                None None 500 1000000 H1) as (_ & _ & Hn & _).
  split; [exact H1|]. split.
  - exact Hd.
  - rewrite Hn. apply app_nil_r.
Defined.

(** C8 as stated fails once the cap is reached.  In a session with cap
    1 the record_start line has used the cap: the attacker of the first
    damage event and the victim of the first death event pass the
    filter, yet no line is written to any file (the call only emits the
    cap diagnostic).  The same holds past the cap, in the session with
    cap 2 after two admitted events. *)
Lemma admitted_at_cap_writes_no_line :
  demo_start 1 = (true, demo_session 1)
  /\ writing_to demo_file (demo_session 1)
  /\ _eventCount (recorder (demo_session 1)) = 1
  /\ _maxEvents (recorder (demo_session 1)) = 1
  /\ PassesFilters (recorder (demo_session 1))
       (Some (demo_at "A" false 110 100 50)) = true
  /\ files (RecordDamage (Some (demo_at "A" false 110 100 50))
              (Some (demo_at "B" true 300 100 50)) 500 1000000
              (demo_session 1))
     = files (demo_session 1)
  /\ files (RecordUnitDeath (Some (demo_at "A" false 110 100 50)) None
              1000000 (demo_session 1))
     = files (demo_session 1)
  /\ file_lines demo_file
       (RecordDamage (Some (demo_at "A" false 110 100 50))
          (Some (demo_at "B" true 300 100 50)) 500 1000000 (demo_session 1))
     = [startEvent "boss1" 0 demo_file]
  /\ writing_to demo_file demo_capped
  /\ PassesFilters (recorder demo_capped)
       (Some (demo_at "A" false 110 100 50)) = true
  /\ RecordDamage (Some (demo_at "A" false 110 100 50))
       (Some (demo_at "B" true 300 100 50)) 500 3000000 demo_capped
     = demo_capped.
Proof.
  repeat apply conj; vm_compute; reflexivity.
Qed.

(** ** Calls outside a session (C9) *)

(** C9: while no session is active, any sequence of Record* calls leaves
    the world exactly as it was: no file is created or written, the
    counter and every other field keep their values. *)
Theorem record_calls_while_inactive (cs : list (RecordCall * Z)) (w : World) :
  Inv w ->
  IsActive w = false ->
  record_calls cs w = w.
Proof.
  unfold Inv, IsActive. intros HInv Ha.
  induction cs as [|[c now] cs IH]; [reflexivity|].
  cbn [record_calls]. rewrite record_call_closed; [exact IH|].
  by rewrite <- HInv.
Qed.

Lemma record_calls_while_inactive_witness :
  (Inv demo_stopped /\ IsActive demo_stopped = false)
  /\ record_calls demo_two_hits (demo_world 100000) = demo_world 100000
  /\ record_calls demo_two_hits demo_stopped = demo_stopped.
Proof.
  assert (H1 : Inv demo_stopped) by reflexivity.
  assert (H2 : IsActive demo_stopped = false) by reflexivity.
  split; [by split|]. split.
  - exact (record_calls_while_inactive demo_two_hits (demo_world 100000)
             (demo_world_Inv 100000) eq_refl).
  - exact (record_calls_while_inactive demo_two_hits demo_stopped H1 H2).
Defined.

(** ** Active iff open (C10) *)

Lemma WriteEvent_Inv (l : string) (w : World) : Inv w -> Inv (WriteEvent l w).
Proof.
  unfold Inv. intros H.
  destruct (WriteEvent_keeps_session l w) as [-> ->]. exact H.
Qed.

Lemma record_call_Inv (c : RecordCall) (now : Z) (w : World) :
  Inv w -> Inv (record_call c now w).
Proof.
  intros H. rewrite record_call_spec.
  destruct (admits (recorder w) c); [by apply WriteEvent_Inv | done].
Qed.

Lemma StartSession_Inv (name : string) (player : option Unit)
    (mapFilter : Z) (radius : Float32.t) (env : StartEnv) (w : World) :
  Inv w -> Inv (snd (StartSession name player mapFilter radius env w)).
Proof.
  intros H. unfold StartSession.
  destruct (_active (recorder w)) eqn:Ea; [exact H|].
  destruct (_enabled (recorder w)); [|exact H]. cbn [negb].
  destruct (create_directories_error env); [exact H|].
  unfold ofstream_open.
  unfold Inv in H. rewrite Ea in H.
  rewrite (is_open_false_path _ (eq_sym H)).
  destruct (open_ok env); cbn [negb is_open stream_path snd].
  - match goal with
    | |- Inv (LOG _ (WriteEvent ?l ?w1)) => change (Inv (WriteEvent l w1))
    end.
    apply WriteEvent_Inv. reflexivity.
  - unfold Inv. cbn. exact Ea.
Qed.

Lemma StopSession_Inv (now : Z) (w : World) :
  Inv w -> Inv (snd (StopSession now w)).
Proof.
  intros H. unfold StopSession.
  destruct (_active (recorder w)); [reflexivity | exact H].
Qed.

Lemma LoadConfig_Inv (w : World) : Inv w -> Inv (LoadConfig w).
Proof.
  unfold Inv, LoadConfig. intros H.
  by destruct (cfg_Enable (sConfigMgr w)).
Qed.

Create HintDb inv discriminated.

#[local] Hint Resolve WriteEvent_Inv record_call_Inv StartSession_Inv
  StopSession_Inv LoadConfig_Inv : inv.

Lemma step_Inv (o : Op) (w : World) : Inv w -> Inv (step o w).
Proof.
  intros H. destruct o; cbn [step]; auto with inv.
Qed.

Lemma run_Inv (os : list Op) (w : World) : Inv w -> Inv (run os w).
Proof.
  revert w. induction os as [|o os IH]; intros w H; [exact H|].
  apply IH. by apply step_Inv.
Qed.

(** C10: IsActive is true iff the handle is open in the initial state,
    and every public operation preserves this: StartSession on its
    success path and on each failure path, StopSession on both paths,
    every Record* call (and a configuration reload); hence it holds in
    every reachable state.  WriteEvent changes the files only when the
    handle is open, which under the invariant means during an active
    session. *)
Theorem active_iff_open (cfg : Config) :
  Inv (world0 cfg)
  /\ (forall name player mapFilter radius env w,
        Inv w -> Inv (snd (StartSession name player mapFilter radius env w)))
  /\ (forall now w, Inv w -> Inv (snd (StopSession now w)))
  /\ (forall c now w, Inv w -> Inv (record_call c now w))
  /\ (forall os, Inv (run os (world0 cfg)))
  /\ (forall l w,
        Inv w -> files (WriteEvent l w) <> files w ->
        is_open (_outFile (recorder w)) = true /\ IsActive w = true).
Proof.
  split; [reflexivity|].
  split; [intros; by apply StartSession_Inv|].
  split; [intros; by apply StopSession_Inv|].
  split; [intros; by apply record_call_Inv|].
  split; [intros; by apply run_Inv|].
  intros l w HInv Hneq. unfold Inv in HInv. unfold IsActive. rewrite HInv.
  destruct (is_open (_outFile (recorder w))) eqn:Ho; [done|].
  by rewrite WriteEvent_closed in Hneq.
Qed.

Lemma active_iff_open_witness :
  Inv (demo_session 100000)
  /\ Inv (snd (StopSession 5000000 (demo_session 100000)))
  /\ Inv (snd (StartSession "x" None 0 Float32.zero
                 {| create_directories_error := None; open_ok := false;
                    timeBuf := "20260101_120000"; start_now := 0 |}
                 (demo_world 100000))).
Proof.
  pose proof (active_iff_open (demo_config 100000))
    as (H0 & Hstart & Hstop & _).
  assert (H1 : Inv (demo_session 100000)) by (apply Hstart, H0).
  split; [exact H1|]. split.
  - apply Hstop, H1.
  - apply Hstart. apply LoadConfig_Inv, H0.
Defined.

(** ** Escaping (C7) *)

Lemma json_unescape_escape_char (c : ascii) (rest : string) :
  json_unescape (escape_char c +:+ rest) = String c <$> json_unescape rest.
Proof.
  destruct c as [[] [] [] [] [] [] [] []]; reflexivity.
Qed.

(** Names survive EscapeJson followed by decoding, whatever they hold. *)
Lemma EscapeJson_roundtrip (s : string) :
  json_unescape (EscapeJson s) = Some s.
Proof.
  induction s as [|c s IH]; [reflexivity|].
  cbn [EscapeJson]. rewrite json_unescape_escape_char, IH. reflexivity.
Qed.

Lemma json_ok_escape_char (c : ascii) (rest : string) :
  forbidden_in_json_text c = false ->
  json_string_body_ok (escape_char c +:+ rest) = json_string_body_ok rest.
Proof.
  destruct c as [[] [] [] [] [] [] [] []]; intros H;
    first [discriminate H | reflexivity].
Qed.

(** On tame names EscapeJson produces a well-formed JSON string body. *)
Lemma EscapeJson_tame_ok (s : string) :
  tame s = true -> json_string_body_ok (EscapeJson s) = true.
Proof.
  unfold tame. induction s as [|c s IH]; [reflexivity|].
  cbn [string_exists EscapeJson]. rewrite negb_orb. intros H.
  apply andb_true_iff in H as [Hc Hs]. apply negb_true_iff in Hc.
  rewrite json_ok_escape_char by exact Hc. by apply IH.
Qed.

Lemma json_ok_JsonEscape_char (c : ascii) (rest : string) :
  json_string_body_ok (JsonEscape_char c +:+ rest) = json_string_body_ok rest.
Proof.
  destruct c as [[] [] [] [] [] [] [] []]; reflexivity.
Qed.

(** The sibling function produces a well-formed body for every input. *)
Lemma JsonEscape_ok (s : string) : json_string_body_ok (JsonEscape s) = true.
Proof.
  induction s as [|c s IH]; [reflexivity|].
  cbn [JsonEscape]. by rewrite json_ok_JsonEscape_char.
Qed.

(** C7, evaluated where it fails: EscapeJson leaves the backspace
    character (0x08) of a name as it is, so the name member is not a
    well-formed JSON string and the line written for that creature holds
    a character that no JSON text may contain; the sibling
    AppenderJsonl::JsonEscape escapes the same name. *)
Theorem EscapeJson_keeps_backspace :
  EscapeJson demo_backspace_name = demo_backspace_name
  /\ json_string_body_ok (EscapeJson demo_backspace_name) = false
  /\ string_exists forbidden_in_json_text
       (leave_combat_json 1 (Some demo_backspace_boss)) = true
  /\ file_lines demo_file
       (RecordLeaveCombat (Some demo_backspace_boss) 1000000
          (demo_session 100000))
     = [startEvent "boss1" 0 demo_file;
        leave_combat_json 1 (Some demo_backspace_boss)]
  /\ JsonEscape demo_backspace_name = String chr_backslash "boss"
  /\ json_string_body_ok (JsonEscape demo_backspace_name) = true.
Proof.
  vm_compute. repeat split.
Qed.

(** * Further properties of the code *)

(** ** Strings *)

(** From here on concatenations with a known head are computed. *)
#[local] Arguments String.append !s1 s2 / : simpl nomatch.

Lemma append_assoc (a b c : string) : (a +:+ b) +:+ c = a +:+ (b +:+ c).
Proof.
  induction a as [|x a IH]; [reflexivity|]. simpl. f_equal. exact IH.
Qed.


Lemma length_append (a b : string) :
  String.length (a +:+ b) = (String.length a + String.length b)%nat.
Proof.
  induction a as [|x a IH]; [reflexivity|]. simpl. f_equal. exact IH.
Qed.

Lemma string_exists_append (f : ascii -> bool) (a b : string) :
  string_exists f (a +:+ b) = string_exists f a || string_exists f b.
Proof.
  induction a as [|x a IH]; [reflexivity|]. simpl. rewrite IH.
  by rewrite orb_assoc.
Qed.

Lemma no_quote_append (a b : string) :
  no_quote (a +:+ b) = no_quote a && no_quote b.
Proof.
  unfold no_quote. rewrite string_exists_append. apply negb_orb.
Qed.

Lemma no_quote_cons (c : ascii) (s : string) :
  no_quote (String c s) = negb (Ascii.eqb chr_quote c) && no_quote s.
Proof.
  unfold no_quote. cbn. apply negb_orb.
Qed.

Lemma no_quote_string_of_uint (d : Decimal.uint) :
  no_quote (NilEmpty.string_of_uint d) = true.
Proof.
  induction d; cbn [NilEmpty.string_of_uint]; rewrite ?no_quote_cons, ?IHd;
    reflexivity.
Qed.

Lemma no_quote_fmt_int (z : Z) : no_quote (fmt_int z) = true.
Proof.
  unfold fmt_int, NilZero.string_of_int, NilZero.string_of_uint.
  destruct (Z.to_int z) as [d|d]; destruct d;
    rewrite ?no_quote_cons; try reflexivity;
    cbn [negb andb Ascii.eqb chr_quote];
    first [ exact (no_quote_string_of_uint _)
          | rewrite <- (no_quote_string_of_uint d); reflexivity
          | idtac ].
Qed.

Lemma no_quote_digit_char (d : Z) :
  0 <= d < 10 -> Ascii.eqb chr_quote (digit_char d) = false.
Proof.
  intros H.
  assert (Hd : d = 0 \/ d = 1 \/ d = 2 \/ d = 3 \/ d = 4 \/ d = 5 \/ d = 6
               \/ d = 7 \/ d = 8 \/ d = 9) by lia.
  repeat (destruct Hd as [-> | Hd]; [reflexivity|]). by subst.
Qed.

Lemma no_quote_fmt_millis (ms : Z) : no_quote (fmt_millis ms) = true.
Proof.
  unfold fmt_millis. rewrite !no_quote_append, no_quote_fmt_int.
  rewrite !no_quote_cons.
  rewrite !no_quote_digit_char by (apply Z.mod_pos_bound; lia).
  by destruct (ms <? 0).
Qed.

(** A search for a marker that starts with a quote passes over text
    without quotes. *)
Lemma find_after_skip (m d rest : string) :
  no_quote d = true ->
  find_after (String chr_quote m) (d +:+ rest)
  = find_after (String chr_quote m) rest.
Proof.
  induction d as [|c d IH]; [reflexivity|].
  rewrite no_quote_cons. intros H. apply andb_true_iff in H as [Hc Hd].
  apply negb_true_iff in Hc.
  cbn [String.append find_after drop_prefix]. rewrite Hc. by apply IH.
Qed.

Lemma until_quote_append (k rest : string) :
  no_quote k = true -> until_quote (k +:+ String chr_quote rest) = k.
Proof.
  induction k as [|c k IH]; [reflexivity|].
  rewrite no_quote_cons. intros H. apply andb_true_iff in H as [Hc Hk].
  apply negb_true_iff in Hc. rewrite Ascii.eqb_sym in Hc.
  cbn [String.append until_quote]. rewrite Hc. f_equal. by apply IH.
Qed.

Lemma event_field_envelope (t : Z) (kind rest : string) :
  no_quote kind = true ->
  event_field (envelope t kind +:+ rest) = Some kind.
Proof.
  intros Hk. unfold event_field, envelope, key, quoted, str1.
  rewrite !append_assoc. simpl.
  rewrite find_after_skip by apply no_quote_fmt_millis. simpl.
  rewrite !append_assoc. simpl.
  by rewrite until_quote_append.
Qed.

(** ** The lines of the Record* methods *)

Lemma event_field_line_of (r : EventRecorder) (c : RecordCall) (now : Z) :
  event_field (line_of r (c, now)) = Some (kind_of c).
Proof.
  destruct c; cbn [line_of fst snd kind_of];
    unfold enter_combat_json, leave_combat_json, evade_json, death_json,
      damage_json, heal_json, aura_apply_json, aura_remove_json,
      spell_cast_json;
    by apply event_field_envelope.
Qed.

(** X1: whatever the entities, the amounts and the clock, the line a
    Record* method hands to WriteEvent carries in its event member the
    kind of that method, and so counts as a data line. *)
Theorem line_event_is_kind (r : EventRecorder) (c : RecordCall) (now : Z) :
  event_field (line_of r (c, now)) = Some (kind_of c)
  /\ is_data_line (line_of r (c, now)) = true.
Proof.
  pose proof (event_field_line_of r c now) as H.
  split; [exact H|]. unfold is_data_line. rewrite H. by destruct c.
Qed.

(** ** EscapeJson and its sibling *)

Lemma EscapeJson_append (a b : string) :
  EscapeJson (a +:+ b) = EscapeJson a +:+ EscapeJson b.
Proof.
  induction a as [|c a IH]; [reflexivity|].
  cbn [String.append EscapeJson]. by rewrite IH, append_assoc.
Qed.

Lemma length_escape_char (c : ascii) :
  (1 <= String.length (escape_char c) <= 2)%nat.
Proof.
  destruct c as [[] [] [] [] [] [] [] []]; cbn; lia.
Qed.

(** X2: EscapeJson loses nothing.  Decoding the escapes of its output
    gives the input back, so two names have the same escaped text only
    if they are the same name, and the escaped text of a concatenation
    is the concatenation of the escaped texts. *)
Theorem EscapeJson_injective (s t : string) :
  json_unescape (EscapeJson s) = Some s
  /\ (EscapeJson s = EscapeJson t <-> s = t)
  /\ EscapeJson (s +:+ t) = EscapeJson s +:+ EscapeJson t.
Proof.
  split; [apply EscapeJson_roundtrip|]. split; [|apply EscapeJson_append].
  split; [|by intros ->].
  intros H. apply (f_equal json_unescape) in H.
  rewrite !EscapeJson_roundtrip in H. by injection H.
Qed.

(** X3: EscapeJson never shortens a string and at most doubles it: every
    character becomes one or two characters. *)
Theorem EscapeJson_length (s : string) :
  (String.length s <= String.length (EscapeJson s) <= 2 * String.length s)%nat.
Proof.
  induction s as [|c s IH]; [cbn; lia|].
  cbn [EscapeJson String.length]. rewrite length_append.
  pose proof (length_escape_char c). lia.
Qed.

Lemma JsonEscape_char_tame (c : ascii) :
  forbidden_in_json_text c = false -> JsonEscape_char c = escape_char c.
Proof.
  destruct c as [[] [] [] [] [] [] [] []]; intros H;
    first [discriminate H | reflexivity].
Qed.

Lemma JsonEscape_char_forbidden (c : ascii) (x y : string) :
  forbidden_in_json_text c = true ->
  JsonEscape_char c +:+ x <> escape_char c +:+ y.
Proof.
  destruct c as [[] [] [] [] [] [] [] []]; intros H;
    first [discriminate H | cbn; discriminate].
Qed.

Lemma append_inj_l (a x y : string) : a +:+ x = a +:+ y -> x = y.
Proof.
  induction a as [|c a IH]; [done|]. cbn. intros [= H]. by apply IH.
Qed.

(** X4: AppenderJsonl::JsonEscape and EventRecorder::EscapeJson give the
    same text exactly on the strings whose only characters below 0x20
    are tab, line feed and carriage return. *)
Theorem JsonEscape_agrees_iff_tame (s : string) :
  JsonEscape s = EscapeJson s <-> tame s = true.
Proof.
  unfold tame. induction s as [|c s IH]; [done|].
  cbn [JsonEscape EscapeJson string_exists]. rewrite negb_orb, andb_true_iff.
  destruct (forbidden_in_json_text c) eqn:Hc; cbn [negb].
  - split; [|intros [? _]; discriminate].
    intros H. by apply JsonEscape_char_forbidden in H.
  - rewrite JsonEscape_char_tame by exact Hc. rewrite <- IH.
    split; [intros H; split; [done|]; by apply append_inj_l in H
           | intros [_ ->]; done].
Qed.

Lemma json_decode_JsonEscape_char (c : ascii) (rest : string) :
  json_decode (JsonEscape_char c +:+ rest) = String c <$> json_decode rest.
Proof.
  destruct c as [[] [] [] [] [] [] [] []]; reflexivity.
Qed.

(** X5: the output of AppenderJsonl::JsonEscape is, for every input, a
    well-formed JSON string body that decodes to the input. *)
Theorem JsonEscape_decodes (s : string) :
  json_string_body_ok (JsonEscape s) = true
  /\ json_decode (JsonEscape s) = Some s.
Proof.
  split; [apply JsonEscape_ok|].
  induction s as [|c s IH]; [reflexivity|].
  cbn [JsonEscape]. by rewrite json_decode_JsonEscape_char, IH.
Qed.

(** ** FormatUnit *)

Lemma string_body_escape_char (c : ascii) (rest : string) :
  string_body (escape_char c +:+ rest)
  = (fun b => escape_char c +:+ b) <$> string_body rest.
Proof.
  destruct c as [[] [] [] [] [] [] [] []]; reflexivity.
Qed.

Lemma string_body_EscapeJson (s rest : string) :
  string_body (EscapeJson s +:+ String chr_quote rest) = Some (EscapeJson s).
Proof.
  induction s as [|c s IH]; [reflexivity|].
  cbn [EscapeJson]. rewrite append_assoc, string_body_escape_char, IH.
  reflexivity.
Qed.

(** The descriptor's type, as FormatUnit chooses it. *)
Lemma FormatUnit_type_member (u : Unit) :
  string_member "type" (FormatUnit (Some u))
  = Some (if IsCreature u then "creature"
          else if IsPlayer u then "player" else "unit")%string.
Proof.
  unfold string_member, FormatUnit.
  destruct (IsCreature u); [|destruct (IsPlayer u)]; reflexivity.
Qed.

(** X6: the name member of an entity descriptor, read back and decoded,
    is the entity's name, whatever characters the name holds and
    whatever the entity's kind, entry and guid. *)
Theorem FormatUnit_name_roundtrip (u : Unit) :
  string_member "name" (FormatUnit (Some u)) = Some (GetName u).
Proof.
  unfold string_member, FormatUnit, key, quoted, str1.
  destruct (IsCreature u); [|destruct (IsPlayer u)];
    rewrite !append_assoc; simpl;
    rewrite ?(find_after_skip _ _ _ (no_quote_fmt_int _)); simpl;
    rewrite ?append_assoc; simpl;
    rewrite string_body_EscapeJson; apply EscapeJson_roundtrip.
Qed.

(** ** Files and failures *)

Lemma WriteEvent_other_file (l : string) (w : World) (p : string) :
  stream_path (_outFile (recorder w)) <> Some p ->
  files (WriteEvent l w) !! p = files w !! p.
Proof.
  intros Hp. unfold WriteEvent.
  destruct (negb (is_open (_outFile (recorder w)))); [done|].
  destruct (_maxEvents (recorder w) <=? _eventCount (recorder w)).
  { by destruct (_eventCount (recorder w) =? _maxEvents (recorder w)). }
  cbn [files]. unfold ofstream_put.
  destruct (stream_path (_outFile (recorder w))) as [q|]; [|done].
  destruct (failbit (_outFile (recorder w))); [done|].
  apply lookup_insert_ne. congruence.
Qed.

(** X7: a step of the recorder touches no file but the session's own:
    a file that is neither the one the handle is open on nor the one a
    StartSession is about to create keeps its content (or its absence)
    through StartSession, StopSession, every Record* call and a
    configuration reload. *)
Theorem step_touches_only_session_file (o : Op) (w : World) (p : string) :
  stream_path (_outFile (recorder w)) <> Some p ->
  (forall name player mapFilter radius env,
      o = OpStartSession name player mapFilter radius env ->
      session_filename (_outputDir (recorder w)) name (timeBuf env) <> p) ->
  files (step o w) !! p = files w !! p.
Proof.
  intros Hp Hnew. destruct o as [name player mf rad env|now|c now|cfg].
  - specialize (Hnew _ _ _ _ _ eq_refl). cbn [step]. unfold StartSession.
    destruct (_active (recorder w)); [done|].
    destruct (_enabled (recorder w)); [|done]. cbn [negb].
    destruct (create_directories_error env); [done|].
    unfold ofstream_open.
    destruct (stream_path (_outFile (recorder w))) as [q|] eqn:Eq.
    + cbn [is_open stream_path negb snd LOG files].
      rewrite WriteEvent_other_file; [done|]. exact Hp.
    + destruct (open_ok env); cbn [is_open stream_path negb snd LOG files];
        [|done].
      rewrite WriteEvent_other_file by (cbn; congruence).
      cbn [files]. by apply lookup_insert_ne.
  - cbn [step]. unfold StopSession.
    destruct (_active (recorder w)); [|done]. cbn [negb snd LOG files].
    by apply WriteEvent_other_file.
  - cbn [step]. rewrite record_call_spec.
    destruct (admits (recorder w) c); [by apply WriteEvent_other_file|done].
  - cbn [step]. unfold LoadConfig. cbn.
    by destruct (cfg_Enable cfg).
Qed.

Lemma step_touches_only_session_file_witness :
  stream_path (_outFile (recorder (demo_session 100000))) <> Some "other.jsonl"
  /\ files (step (OpRecord demo_hit 1000000) (demo_session 100000))
       !! "other.jsonl"
     = files (demo_session 100000) !! "other.jsonl".
Proof.
  assert (H : stream_path (_outFile (recorder (demo_session 100000)))
              <> Some "other.jsonl"%string) by (vm_compute; discriminate).
  split; [exact H|].
  apply (step_touches_only_session_file (OpRecord demo_hit 1000000)
           (demo_session 100000) "other.jsonl" H).
  intros; discriminate.
Defined.

(** X8: a StartSession that returns failure leaves no trace of a
    session: the files are as before (nothing created, nothing
    truncated), the recorder keeps every field (activity, name, counter,
    filters, anchor, start instant, cap) except possibly the state flags
    of its closed stream, and the log grows by at most one entry, which
    is not the cap diagnostic. *)
Theorem StartSession_failure_changes_nothing (name : string)
    (player : option Unit) (mapFilter : Z) (radius : Float32.t)
    (env : StartEnv) (w : World) :
  fst (StartSession name player mapFilter radius env w) = false ->
  let w' := snd (StartSession name player mapFilter radius env w) in
  files w' = files w
  /\ sConfigMgr w' = sConfigMgr w
  /\ recorder w' = set_outFile (_outFile (recorder w')) (recorder w)
  /\ stream_path (_outFile (recorder w')) = stream_path (_outFile (recorder w))
  /\ cap_diagnostics (logs w') = cap_diagnostics (logs w)
  /\ (length (logs w') <= S (length (logs w)))%nat.
Proof.
  assert (Hsame : forall r, set_outFile (_outFile r) r = r) by (by intros []).
  unfold StartSession.
  destruct (_active (recorder w)).
  { intros _. cbn. rewrite Hsame. repeat split; lia. }
  destruct (_enabled (recorder w)); cbn [negb].
  2:{ intros _. cbn. rewrite Hsame. repeat split; lia. }
  destruct (create_directories_error env).
  { intros _. cbn. rewrite Hsame. unfold cap_diagnostics.
    rewrite List.filter_app, !length_app. cbn. repeat split; lia. }
  unfold ofstream_open.
  destruct (stream_path (_outFile (recorder w))) as [q|] eqn:Eq.
  { cbn [is_open stream_path negb fst]. discriminate. }
  destruct (open_ok env); cbn [is_open stream_path negb fst];
    [discriminate|].
  intros _. cbn. unfold cap_diagnostics.
  rewrite List.filter_app, !length_app. cbn. rewrite ?Eq.
  repeat split; lia.
Qed.

Lemma StartSession_failure_changes_nothing_witness :
  fst (StartSession "x" None 0 Float32.zero
         {| create_directories_error := None; open_ok := false;
            timeBuf := "20260101_120000"; start_now := 0 |}
         (demo_world 100000)) = false
  /\ files (snd (StartSession "x" None 0 Float32.zero
                   {| create_directories_error := None; open_ok := false;
                      timeBuf := "20260101_120000"; start_now := 0 |}
                   (demo_world 100000)))
     = files (demo_world 100000).
Proof.
  assert (H : fst (StartSession "x" None 0 Float32.zero
                     {| create_directories_error := None; open_ok := false;
                        timeBuf := "20260101_120000"; start_now := 0 |}
                     (demo_world 100000)) = false) by reflexivity.
  split; [exact H|].
  exact (proj1 (StartSession_failure_changes_nothing _ _ _ _ _ _ H)).
Defined.

(** ** The session a start sets up *)

(** The filter fields a successful StartSession resolves. *)
Lemma StartSession_success_filters (name : string) (player : option Unit)
    (mapFilter : Z) (radius : Float32.t) (env : StartEnv) (w0 w1 : World) :
  StartSession name player mapFilter radius env w0 = (true, w1) ->
  _active (recorder w1) = true
  /\ _mapFilter (recorder w1) =
       match player with
       | Some p => if mapFilter =? 0 then GetMapId p else mapFilter
       | None => mapFilter
       end
  /\ _instanceFilter (recorder w1) =
       match player with
       | Some p => GetInstanceId p
       | None => _instanceFilter (recorder w0)
       end
  /\ match player with
     | Some p =>
         _recorderX (recorder w1) = GetPositionX p
         /\ _recorderY (recorder w1) = GetPositionY p
         /\ _recorderZ (recorder w1) = GetPositionZ p
         /\ _recorderMapId (recorder w1) = GetMapId p
     | None => True
     end.
Proof.
  unfold StartSession.
  destruct (_active (recorder w0)); [discriminate|].
  destruct (_enabled (recorder w0)); [|discriminate]. cbn [negb].
  destruct (create_directories_error env); [discriminate|].
  destruct (ofstream_open _ _ _ _) as [f fs].
  destruct (negb (is_open f)); [discriminate|].
  intros [= <-]. cbn [recorder LOG]. rewrite WriteEvent_recorder.
  cbn. destruct player; repeat split.
Qed.

(** The offset of a point from itself is zero, or NaN when the
    coordinate is not finite. *)
Lemma sub_self (x : Float32.t) :
  Float32.sub x x = S754_zero false \/ Float32.sub x x = S754_nan.
Proof.
  destruct x as [s|s| |s m e]; cbn.
  - left. by destruct s.
  - right. by destruct s.
  - by right.
  - left. unfold Float32.sub, SFsub. rewrite Z.sub_diag. reflexivity.
Qed.

(** The square of a positive radius is never negative. *)
Lemma square_not_below_zero (r : Float32.t) :
  Float32.gtb r Float32.zero = true ->
  Float32.ltb (Float32.mul r r) (S754_zero false) = false.
Proof.
  destruct r as [s|s| |s m e]; try discriminate.
  - destruct s; [discriminate | reflexivity].
  - destruct s; [discriminate|]. intros _.
    unfold Float32.mul, SFmul, binary_round_aux. cbn [xorb].
    destruct (shr_fexp _ _ _ _ _) as [mrs e'].
    destruct (shr_fexp _ _ _ _ _) as [mrs' e''].
    destruct (shr_m mrs'); [reflexivity | | reflexivity].
    by destruct (_ <=? _).
Qed.

Lemma starter_inside_filter (name : string) (p : Unit)
    (radius : Float32.t) (env : StartEnv) (w0 w1 : World) :
  StartSession name (Some p) 0 radius env w0 = (true, w1) ->
  PassesFilters (recorder w1) (Some p) = true.
Proof.
  intros H.
  destruct (StartSession_success_filters _ _ _ _ _ _ _ H)
    as (Ha & Hm & Hi & Hx & Hy & Hz & Hmap).
  cbn [Z.eqb] in Hm.
  unfold PassesFilters. rewrite Hm, Hmap, Z.eqb_refl.
  rewrite andb_false_r, andb_true_r.
  destruct (Float32.gtb (_radius (recorder w1)) Float32.zero) eqn:Hr;
    [|reflexivity].
  apply square_not_below_zero in Hr.
  unfold distSq. rewrite Hx, Hy, Hz. unfold Float32.gtb.
  destruct (sub_self (GetPositionX p)) as [-> | ->],
           (sub_self (GetPositionY p)) as [-> | ->],
           (sub_self (GetPositionZ p)) as [-> | ->];
    cbn; first [ by rewrite Hr
               | by destruct (Float32.mul _ _) ].
Qed.

(** X9: the player who starts a session without a map override is
    always inside the session's own filter, whatever the radius
    resolves to and even if a coordinate is infinite or NaN; and the
    session is active for the player's map and instance. *)
Theorem starter_passes_own_filter (name : string) (p : Unit)
    (radius : Float32.t) (env : StartEnv) (w0 w1 : World) :
  StartSession name (Some p) 0 radius env w0 = (true, w1) ->
  PassesFilters (recorder w1) (Some p) = true
  /\ IsActiveForMap (GetMapId p) (GetInstanceId p) w1 = true.
Proof.
  intros H. split; [by eapply starter_inside_filter|].
  destruct (StartSession_success_filters _ _ _ _ _ _ _ H)
    as (Ha & Hm & Hi & _).
  cbn [Z.eqb] in Hm.
  unfold IsActiveForMap. rewrite Ha, Hm, Hi, !Z.eqb_refl.
  cbn. by rewrite !andb_false_r.
Qed.

Lemma starter_passes_own_filter_witness :
  demo_start 100000 = (true, demo_session 100000)
  /\ PassesFilters (recorder (demo_session 100000)) (Some demo_gm) = true.
Proof.
  assert (H : demo_start 100000 = (true, demo_session 100000)) by reflexivity.
  split; [exact H|].
  exact (proj1 (starter_passes_own_filter _ _ _ _ _ _ H)).
Defined.

(** ** What admission never looks at *)

(** X10: the instance filter that StartSession stores is read by
    IsActiveForMap only, never by admission.  In a session started by a
    player in instance i (not 0) without a map override, IsActiveForMap
    is false for any other instance j of the player's map, yet an entity
    standing where the player stands in instance j passes the filter,
    and neither the admission of a call nor its line depends on the
    instance filter or on the instance an entity is in. *)
Theorem other_instance_still_admitted (name : string) (p : Unit)
    (radius : Float32.t) (env : StartEnv) (w0 w1 : World) (j : Z) :
  StartSession name (Some p) 0 radius env w0 = (true, w1) ->
  GetInstanceId p <> 0 ->
  j <> GetInstanceId p ->
  IsActiveForMap (GetMapId p) j w1 = false
  /\ PassesFilters (recorder w1) (Some (in_instance j p)) = true
  /\ (forall c now i,
        admits (set_instanceFilter i (recorder w1)) c = admits (recorder w1) c
        /\ line_of (set_instanceFilter i (recorder w1)) (c, now)
           = line_of (recorder w1) (c, now))
  /\ (forall u i,
        PassesFilters (recorder w1) (Some (in_instance i u))
        = PassesFilters (recorder w1) (Some u)
        /\ FormatUnit (Some (in_instance i u)) = FormatUnit (Some u)).
Proof.
  intros H Hi0 Hj.
  destruct (StartSession_success_filters _ _ _ _ _ _ _ H)
    as (Ha & Hm & Hi & _).
  cbn [Z.eqb] in Hm. split; [|split; [|split]].
  - unfold IsActiveForMap. rewrite Ha, Hm, Hi, Z.eqb_refl. cbn.
    rewrite andb_false_r.
    apply Z.eqb_neq in Hi0. rewrite Hi0.
    assert (Hne : (GetInstanceId p =? j) = false) by (apply Z.eqb_neq; lia).
    by rewrite Hne.
  - change (PassesFilters (recorder w1) (Some p) = true).
    by eapply starter_inside_filter.
  - intros; split; reflexivity.
  - intros; split; reflexivity.
Qed.

Lemma other_instance_still_admitted_witness :
  StartSession "boss1" (Some (in_instance 7 demo_gm)) 0 (Float32.of_Z 50)
    demo_env (demo_world 100000)
  = (true, snd (StartSession "boss1" (Some (in_instance 7 demo_gm)) 0
                  (Float32.of_Z 50) demo_env (demo_world 100000)))
  /\ IsActiveForMap 0 8
       (snd (StartSession "boss1" (Some (in_instance 7 demo_gm)) 0
               (Float32.of_Z 50) demo_env (demo_world 100000))) = false
  /\ PassesFilters
       (recorder (snd (StartSession "boss1" (Some (in_instance 7 demo_gm)) 0
                         (Float32.of_Z 50) demo_env (demo_world 100000))))
       (Some (in_instance 8 (in_instance 7 demo_gm))) = true.
Proof.
  assert (H : StartSession "boss1" (Some (in_instance 7 demo_gm)) 0
                (Float32.of_Z 50) demo_env (demo_world 100000)
              = (true, snd (StartSession "boss1" (Some (in_instance 7 demo_gm))
                              0 (Float32.of_Z 50) demo_env
                              (demo_world 100000)))) by reflexivity.
  split; [exact H|].
  assert (H7 : GetInstanceId (in_instance 7 demo_gm) <> 0) by discriminate.
  assert (H8 : 8 <> GetInstanceId (in_instance 7 demo_gm)) by discriminate.
  destruct (other_instance_still_admitted _ _ _ _ _ _ 8 H H7 H8)
    as (Hscope & Hpass & _).
  split; [exact Hscope | exact Hpass].
Defined.

(** ** A configuration reload during a session *)

(** X11: every reload keeps the session (activity, name, counter, map
    and instance filters, anchor, start instant, handle) and the files,
    replaces the cap and, when the configured default radius is
    positive, the radius of the running session.  When the new cap is
    below the counter, every later Record* call is dropped without any
    diagnostic and StopSession writes no line. *)
Theorem lowered_cap_drops_silently (cfg : Config) (w : World) :
  let w' := step (OpReloadConfig cfg) w in
  (_active (recorder w') = _active (recorder w)
   /\ _sessionName (recorder w') = _sessionName (recorder w)
   /\ _eventCount (recorder w') = _eventCount (recorder w)
   /\ _mapFilter (recorder w') = _mapFilter (recorder w)
   /\ _instanceFilter (recorder w') = _instanceFilter (recorder w)
   /\ _recorderX (recorder w') = _recorderX (recorder w)
   /\ _recorderY (recorder w') = _recorderY (recorder w)
   /\ _recorderZ (recorder w') = _recorderZ (recorder w)
   /\ _recorderMapId (recorder w') = _recorderMapId (recorder w)
   /\ _sessionStart (recorder w') = _sessionStart (recorder w)
   /\ _outFile (recorder w') = _outFile (recorder w)
   /\ files w' = files w
   /\ _maxEvents (recorder w') = cfg_MaxEvents cfg
   /\ _radius (recorder w') =
        if Float32.gtb (cfg_DefaultRadius cfg) Float32.zero
        then cfg_DefaultRadius cfg else _radius (recorder w))
  /\ (cfg_MaxEvents cfg < _eventCount (recorder w) ->
      (forall cs, record_calls cs w' = w')
      /\ (forall now, files (snd (StopSession now w')) = files w')).
Proof.
  intros w'.
  assert (Hkept :
    _active (recorder w') = _active (recorder w)
    /\ _sessionName (recorder w') = _sessionName (recorder w)
    /\ _eventCount (recorder w') = _eventCount (recorder w)
    /\ _mapFilter (recorder w') = _mapFilter (recorder w)
    /\ _instanceFilter (recorder w') = _instanceFilter (recorder w)
    /\ _recorderX (recorder w') = _recorderX (recorder w)
    /\ _recorderY (recorder w') = _recorderY (recorder w)
    /\ _recorderZ (recorder w') = _recorderZ (recorder w)
    /\ _recorderMapId (recorder w') = _recorderMapId (recorder w)
    /\ _sessionStart (recorder w') = _sessionStart (recorder w)
    /\ _outFile (recorder w') = _outFile (recorder w)
    /\ files w' = files w
    /\ _maxEvents (recorder w') = cfg_MaxEvents cfg
    /\ _radius (recorder w') =
         if Float32.gtb (cfg_DefaultRadius cfg) Float32.zero
         then cfg_DefaultRadius cfg else _radius (recorder w)).
  { unfold w'. cbn [step]. unfold LoadConfig. cbn.
    by destruct (cfg_Enable cfg). }
  split; [exact Hkept|].
  destruct Hkept as (_ & _ & HC & _ & _ & _ & _ & _ & _ & _ & _ & _ & HM & _).
  intros Hc. split.
  - intros cs. apply record_calls_above. lia.
  - intros now. destruct (_active (recorder w')) eqn:Ha.
    + apply StopSession_at_or_above_cap; [done | lia].
    + by rewrite StopSession_inactive.
Qed.

Lemma lowered_cap_drops_silently_witness :
  cfg_MaxEvents (demo_config 0) < _eventCount (recorder (demo_session 100000))
  /\ _maxEvents (recorder (step (OpReloadConfig (demo_config 0))
                             (demo_session 100000))) = 0
  /\ record_calls demo_two_hits
       (step (OpReloadConfig (demo_config 0)) (demo_session 100000))
     = step (OpReloadConfig (demo_config 0)) (demo_session 100000).
Proof.
  assert (H : cfg_MaxEvents (demo_config 0)
              < _eventCount (recorder (demo_session 100000))) by reflexivity.
  destruct (lowered_cap_drops_silently (demo_config 0) (demo_session 100000))
    as [Hkept Hdrop].
  split; [exact H|]. split.
  - exact (proj1 (proj2 (proj2 (proj2 (proj2 (proj2 (proj2 (proj2 (proj2
             (proj2 (proj2 (proj2 (proj2 Hkept))))))))))))).
  - exact (proj1 (Hdrop H) demo_two_hits).
Defined.

(** ** After a stop *)

(** X12: once StopSession has stopped an active session nothing of its
    filters survives: every non-null entity passes the filter, yet no
    Record* call has any effect, a second StopSession fails without a
    change, and IsActiveForMap is false for every scope. *)
Theorem stop_leaves_neutral_recorder (now : Z) (w : World) :
  IsActive w = true ->
  let w' := snd (StopSession now w) in
  (forall u, PassesFilters (recorder w') (Some u) = true)
  /\ (forall cs, record_calls cs w' = w')
  /\ (forall now', StopSession now' w' = (false, w'))
  /\ (forall mapId instanceId, IsActiveForMap mapId instanceId w' = false).
Proof.
  intros Ha w'. unfold IsActive in Ha.
  destruct (StopSession_active now w Ha)
    as (_ & Hact & Hopen & Hmap & _ & Hrad & _).
  fold w' in Hact, Hopen, Hmap, Hrad.
  split; [|split; [|split]].
  - intros u. unfold PassesFilters. by rewrite Hmap, Hrad.
  - intros cs. induction cs as [|[c t] cs IH]; [done|].
    cbn [record_calls]. by rewrite record_call_closed.
  - intros now'. by apply StopSession_inactive.
  - intros m i. unfold IsActiveForMap. by rewrite Hact.
Qed.

Lemma stop_leaves_neutral_recorder_witness :
  IsActive (demo_session 100000) = true
  /\ PassesFilters (recorder demo_stopped) (Some demo_outside) = true
  /\ record_calls demo_two_hits demo_stopped = demo_stopped.
Proof.
  assert (H : IsActive (demo_session 100000) = true) by reflexivity.
  destruct (stop_leaves_neutral_recorder 5000000 (demo_session 100000) H)
    as (Hp & Hr & _).
  split; [exact H|]. split; [apply Hp | apply Hr].
Defined.

(** ** The hooks *)

(** X13: under the invariant the IsActive guard of a hook changes
    nothing: a hook does exactly what its Record* method does (and
    nothing when the spell of a cast is null), because a Record* call
    outside a session is already without effect. *)
Theorem hook_is_its_record_call (h : HookCall) (now : Z) (w : World) :
  Inv w ->
  run_hook h now w =
    match call_of_hook h with
    | Some c => record_call c now w
    | None => w
    end.
Proof.
  intros HInv.
  assert (Hoff : IsActive w = false -> forall c, record_call c now w = w).
  { intros Ha c. apply record_call_closed.
    unfold Inv in HInv. unfold IsActive in Ha. by rewrite <- HInv. }
  destruct h; cbn [run_hook call_of_hook];
    unfold OnDamage, OnHeal, OnAuraApply, OnAuraRemove, OnUnitEnterCombat,
      OnUnitEnterEvadeMode, OnUnitDeath, OnPlayerSpellCast;
    destruct (IsActive w) eqn:Ha; cbn [negb];
    try reflexivity; try (symmetry; by apply Hoff).
  - by destruct spell.
  - destruct spell; [symmetry; by apply Hoff | reflexivity].
Qed.

Lemma hook_is_its_record_call_witness :
  Inv (demo_session 100000)
  /\ run_hook (HookDamage (Some demo_on_boundary) None 500) 1000000
       (demo_session 100000)
     = RecordDamage (Some demo_on_boundary) None 500 1000000
         (demo_session 100000).
Proof.
  assert (H : Inv (demo_session 100000)) by reflexivity.
  split; [exact H|].
  exact (hook_is_its_record_call (HookDamage (Some demo_on_boundary) None 500)
           1000000 (demo_session 100000) H).
Defined.

(** X14: no hook ever records a leave_combat event: the line a hook
    writes has one of the other eight kinds (RecordLeaveCombat has no
    caller among the hooks). *)
Theorem no_hook_records_leave_combat (h : HookCall) (r : EventRecorder)
    (now : Z) :
  match call_of_hook h with
  | Some c => event_field (line_of r (c, now)) <> Some "leave_combat"%string
  | None => True
  end.
Proof.
  destruct h; cbn [call_of_hook]; try destruct spell; try exact I;
    rewrite event_field_line_of; discriminate.
Qed.

(** ** Null payloads *)


(** ** The file of a whole session *)

Lemma event_field_startEvent (name : string) (map : Z) (filename : string) :
  event_field (startEvent name map filename) = Some "record_start"%string.
Proof. reflexivity. Qed.

Lemma event_field_stopEvent (d : Z) (name : string) (n : Z) :
  event_field (stopEvent d name n) = Some "record_stop"%string.
Proof.
  unfold event_field, stopEvent, key, quoted, str1.
  rewrite !append_assoc. simpl.
  rewrite find_after_skip by apply no_quote_fmt_millis. reflexivity.
Qed.

(** The lines of a session that was started, fed and stopped below its
    cap. *)
Lemma stopped_session_lines (name : string) (player : option Unit)
    (mapFilter : Z) (radius : Float32.t) (env : StartEnv) (w0 w1 : World)
    (cs : list (RecordCall * Z)) (now : Z) :
  Inv w0 ->
  StartSession name player mapFilter radius env w0 = (true, w1) ->
  1 <= _maxEvents (recorder w0) < uint32_modulus - 1 ->
  1 + Z.of_nat (length (admitted (recorder w1) cs)) < _maxEvents (recorder w0) ->
  file_lines (session_filename (_outputDir (recorder w0)) name (timeBuf env))
    (snd (StopSession now (record_calls cs w1)))
  = startEvent name (_mapFilter (recorder w1))
      (session_filename (_outputDir (recorder w0)) name (timeBuf env))
      :: map (line_of (recorder w1)) (admitted (recorder w1) cs)
      ++ [stopEvent (GetSessionTime (recorder w1) now) name
            (1 + Z.of_nat (length (admitted (recorder w1) cs)))].
Proof.
  intros HInv HS HM Hk.
  set (f := session_filename (_outputDir (recorder w0)) name (timeBuf env)).
  set (adm := admitted (recorder w1) cs) in *.
  set (w2 := record_calls cs w1).
  destruct (StartSession_success _ _ _ _ _ _ _ HInv HS HM)
    as (Hw & Hact & Hcnt & Hmax & Hname & Hst & Hfile & Hdiag).
  fold f in Hw, Hfile.
  destruct (record_calls_session f cs w1 Hw) as (Hfl & _ & Hrec & _);
    [lia | lia |].
  fold w2 adm in Hfl, Hrec.
  assert (Hroom : room (recorder w1) = Z.to_nat (_maxEvents (recorder w0) - 1)).
  { unfold room. rewrite Hcnt, Hmax. reflexivity. }
  rewrite Hroom, Hcnt, Hmax in Hrec.
  replace (1 <=? _maxEvents (recorder w0)) with true in Hrec
    by (symmetry; apply Z.leb_le; lia).
  assert (Hc2 : _eventCount (recorder w2) = 1 + Z.of_nat (length adm)).
  { rewrite Hrec. cbn [_eventCount set_eventCount]. lia. }
  assert (Ha2 : _active (recorder w2) = true) by (rewrite Hrec; exact Hact).
  assert (Hw2 : writing_to f w2).
  { unfold writing_to. rewrite Hrec. exact Hw. }
  rewrite (StopSession_below now w2 f Ha2 Hw2)
    by (rewrite Hc2; rewrite Hrec; cbn [_maxEvents set_eventCount]; lia).
  rewrite Hfl, Hfile, Hroom, Hc2.
  rewrite take_ge by lia.
  rewrite Hrec at 1 2.
  cbn [_sessionName _sessionStart set_eventCount GetSessionTime].
  unfold GetSessionTime. rewrite Hname. reflexivity.
Qed.

(** X16: read back line by line, the file of a session that was
    started, fed any run of Record* calls and stopped below its cap
    shows record_start first, then the kinds of the admitted calls in
    the order of the calls, then record_stop; rejected calls leave no
    line. *)
Theorem session_file_event_kinds (name : string) (player : option Unit)
    (mapFilter : Z) (radius : Float32.t) (env : StartEnv) (w0 w1 : World)
    (cs : list (RecordCall * Z)) (now : Z) :
  Inv w0 ->
  StartSession name player mapFilter radius env w0 = (true, w1) ->
  1 <= _maxEvents (recorder w0) < uint32_modulus - 1 ->
  1 + Z.of_nat (length (admitted (recorder w1) cs)) < _maxEvents (recorder w0) ->
  map event_field
    (file_lines (session_filename (_outputDir (recorder w0)) name (timeBuf env))
       (snd (StopSession now (record_calls cs w1))))
  = Some "record_start"%string
      :: map (fun cn => Some (kind_of (fst cn))) (admitted (recorder w1) cs)
      ++ [Some "record_stop"%string].
Proof.
  intros HInv HS HM Hk.
  rewrite (stopped_session_lines _ _ _ _ _ _ _ _ _ HInv HS HM Hk).
  cbn [map]. rewrite event_field_startEvent. f_equal.
  rewrite map_app. cbn [map]. rewrite event_field_stopEvent. f_equal.
  rewrite map_map. apply map_ext. intros [c t]. apply event_field_line_of.
Qed.

Lemma session_file_event_kinds_witness :
  Inv (demo_world 100000)
  /\ demo_start 100000 = (true, demo_session 100000)
  /\ map event_field (file_lines demo_file demo_scenario_stopped)
     = [Some "record_start"; Some "damage"; Some "record_stop"]%string.
Proof.
  assert (H1 : Inv (demo_world 100000)) by reflexivity.
  assert (H2 : demo_start 100000 = (true, demo_session 100000)) by reflexivity.
  assert (H3 : 1 <= _maxEvents (recorder (demo_world 100000))
               < uint32_modulus - 1)
    by (vm_compute; split; [discriminate | reflexivity]).
  assert (H4 : 1 + Z.of_nat (length (admitted (recorder (demo_session 100000))
                                       demo_hit_and_miss))
               < _maxEvents (recorder (demo_world 100000)))
    by (vm_compute; reflexivity).
  split; [exact H1|]. split; [exact H2|].
  exact (session_file_event_kinds _ _ _ _ _ _ _ demo_hit_and_miss 5000000
           H1 H2 H3 H4).
Defined.

(** ** AppenderJsonl: numbers and context *)

Lemma all_digits_cons (c : ascii) (s : string) :
  all_digits (String c s) = isdigit c && all_digits s.
Proof.
  unfold all_digits. cbn [string_exists]. rewrite negb_orb.
  by rewrite negb_involutive.
Qed.

Lemma all_digits_take_digits (s : string) : all_digits (take_digits s) = true.
Proof.
  induction s as [|c s IH]; [reflexivity|]. cbn [take_digits].
  destruct (isdigit c) eqn:Hc; [|reflexivity].
  by rewrite all_digits_cons, Hc, IH.
Qed.

(** A number found is a digit followed by digits. *)
Lemma FindNumberAfter_shape (text pattern out : string) :
  FindNumberAfter text pattern = Some out ->
  exists c d, out = String c d /\ isdigit c = true /\ all_digits d = true.
Proof.
  unfold FindNumberAfter.
  destruct (find_after pattern (c_str text)) as [pos|]; [|discriminate].
  destruct (skip_separators pos) as [|c rest]; [discriminate|].
  destruct (isdigit c) eqn:Hc; [|discriminate].
  intros [= <-]. exists c, (take_digits rest). cbn [take_digits].
  rewrite Hc. split; [reflexivity|]. split; [reflexivity|].
  apply all_digits_take_digits.
Qed.

(** X17: when FindNumberAfter succeeds the number it hands back is a
    non-empty run of decimal digits and nothing else, whatever the text
    and the pattern. *)
Theorem FindNumberAfter_digits (text pattern out : string) :
  FindNumberAfter text pattern = Some out ->
  out <> EmptyString /\ all_digits out = true.
Proof.
  intros H. destruct (FindNumberAfter_shape _ _ _ H) as (c & d & -> & Hc & Hd).
  split; [discriminate|]. by rewrite all_digits_cons, Hc, Hd.
Qed.

Lemma FindNumberAfter_digits_witness :
  FindNumberAfter "Creature entry: 123 on map 36" "entry" = Some "123"%string
  /\ "123"%string <> EmptyString /\ all_digits "123" = true.
Proof.
  assert (H : FindNumberAfter "Creature entry: 123 on map 36" "entry"
              = Some "123"%string) by reflexivity.
  split; [exact H|]. exact (FindNumberAfter_digits _ _ _ H).
Defined.








(** ** AppenderJsonl: categories *)

Lemma find_char_substring (c : ascii) (s : string) (n : nat) :
  find_char c s = Some n -> find_char c (substring 0 n s) = None.
Proof.
  revert n. induction s as [|x s IH]; intros n; [discriminate|].
  cbn [find_char]. destruct (Ascii.eqb x c) eqn:Hx.
  - intros [= <-]. reflexivity.
  - destruct (find_char c s) as [k|]; [|discriminate].
    intros [= <-]. cbn [substring find_char]. rewrite Hx.
    by rewrite (IH k).
Qed.

Lemma prefix_of_prefix (n d : nat) (s lit : string) :
  String.length lit = n ->
  substring 0 n (substring 0 d s) = lit ->
  substring 0 n s = lit.
Proof.
  revert d s lit. induction n as [|n IH]; intros d s lit Hlen H.
  - destruct lit; [|discriminate]. by destruct s.
  - destruct lit as [|a lit]; [discriminate|].
    destruct d as [|d]; [by destruct s|].
    destruct s as [|x s]; [discriminate|].
    cbn [substring] in *. injection H as -> H. f_equal.
    apply (IH d); [|exact H]. cbn in Hlen. lia.
Qed.

Lemma compare_0_prefix (n d : nat) (lit s : string) :
  String.length lit = n ->
  compare_0 n lit s = false ->
  compare_0 n lit (substring 0 d s) = false.
Proof.
  unfold compare_0. intros Hlen Hs.
  destruct (String.eqb (substring 0 n (substring 0 d s)) lit) eqn:E;
    [|reflexivity].
  apply String.eqb_eq in E. apply (prefix_of_prefix _ _ _ _ Hlen) in E.
  apply String.eqb_neq in Hs. contradiction.
Qed.

(** X19: the category MapLoggerToCategory gives a logger never holds a
    dot, and is a fixed point: mapping a category again gives the same
    category. *)
Theorem MapLoggerToCategory_stable (loggerType : string) :
  find_char "." (MapLoggerToCategory loggerType) = None
  /\ MapLoggerToCategory (MapLoggerToCategory loggerType)
     = MapLoggerToCategory loggerType.
Proof.
  unfold MapLoggerToCategory at 1 3 4.
  destruct (compare_0 7 "scripts" loggerType) eqn:H1; [by split|].
  destruct (compare_0 6 "spells" loggerType) eqn:H2; [by split|].
  destruct (compare_0 8 "entities" loggerType) eqn:H3; [by split|].
  destruct (compare_0 9 "creatures" loggerType) eqn:H4; [by split|].
  cbn [orb].
  destruct (compare_0 3 "sql" loggerType) eqn:H5; [by split|].
  destruct (compare_0 7 "network" loggerType) eqn:H6; [by split|].
  destruct (compare_0 4 "maps" loggerType) eqn:H7; [by split|].
  destruct (compare_0 6 "server" loggerType) eqn:H8; [by split|].
  destruct (find_char "." loggerType) as [dot|] eqn:Hdot.
  - pose proof (find_char_substring _ _ _ Hdot) as Hnone.
    split; [exact Hnone|]. unfold MapLoggerToCategory.
    rewrite !compare_0_prefix by first [reflexivity | assumption].
    cbn [orb]. by rewrite Hnone.
  - split; [exact Hdot|]. unfold MapLoggerToCategory.
    by rewrite H1, H2, H3, H4, H5, H6, H7, H8, Hdot.
Qed.

(** ** The record command *)




(** X21: the start command changes the world through StartSession only,
    and only when the recorder is enabled, no session is active, the
    arguments are not empty and every flag value parses: otherwise it
    sends one message and leaves the world as it was. *)
Theorem start_command_guards (StringTo_uint32 : string -> option Z)
    (StringTo_float : string -> option Float32.t) (args : string)
    (player : option Unit) (env : StartEnv) (now_info : Z) (w : World) :
  let out :=
    HandleRecordStartCommand StringTo_uint32 StringTo_float args player env
      now_info w in
  (IsEnabled w = false \/ IsActive w = true \/ args = EmptyString
   \/ (exists e, parse_flags StringTo_uint32 StringTo_float
                   (tail (tokens args)) 0 Float32.zero = inl e) ->
   snd out = w /\ length (fst out) = 1%nat)
  /\ (snd out = w
      \/ exists mapFilter radius,
           snd out =
             snd (StartSession
                    (match tokens args with t :: _ => t | [] => EmptyString end)
                    player mapFilter radius env w)).
Proof.
  intros out. unfold out, HandleRecordStartCommand.
  destruct (IsEnabled w); cbn [negb]; [|split; [done | by left]].
  destruct (IsActive w); [split; [done | by left]|].
  destruct (String.eqb args EmptyString) eqn:Hargs;
    [split; [done | by left]|].
  apply String.eqb_neq in Hargs.
  destruct (parse_flags _ _ _ _ _) as [[m|r]|[m r]] eqn:Hp.
  - split; [done | by left].
  - split; [done | by left].
  - split.
    + intros [? | [? | [? | [e ?]]]]; done.
    + right. exists m, r.
      destruct (StartSession _ _ _ _ _ _) as [[] w1]; reflexivity.
Qed.

Lemma start_command_guards_witness :
  IsActive (demo_session 100000) = true
  /\ snd (HandleRecordStartCommand (fun _ => None) (fun _ => None)
            "again --map 1" None demo_env 0 (demo_session 100000))
     = demo_session 100000.
Proof.
  assert (H : IsActive (demo_session 100000) = true) by reflexivity.
  split; [exact H|].
  destruct (start_command_guards (fun _ => None) (fun _ => None)
              "again --map 1" None demo_env 0 (demo_session 100000))
    as [Hg _].
  apply Hg. right. left. exact H.
Defined.

(** X22: the stop command never reports a failure: with no session it
    leaves the world alone, otherwise the session is stopped and the
    information shown is that of the session as it was before the stop,
    so its counter does not include the record_stop line. *)
Theorem stop_command_never_fails (now_info now : Z) (w : World) :
  let out := HandleRecordStopCommand now_info now w in
  fst out <> [ChatText "Failed to stop recording session."]
  /\ (IsActive w = false ->
      out = ([ChatText "No active recording session."], w))
  /\ (IsActive w = true ->
      out = ([ChatText "Recording stopped.";
              ChatSessionInfo
                (ActiveSession (_sessionName (recorder w))
                   (_mapFilter (recorder w)) (_eventCount (recorder w))
                   (_maxEvents (recorder w))
                   (GetSessionTime (recorder w) now_info)
                   (_radius (recorder w)))],
             snd (StopSession now w))).
Proof.
  intros out. unfold out, HandleRecordStopCommand, GetSessionInfo, IsActive.
  destruct (_active (recorder w)) eqn:Ha; cbn [negb].
  - pose proof (StopSession_active now w Ha) as [Hok _].
    destruct (StopSession now w) as [ok w1]. cbn in Hok. subst ok.
    cbn. repeat split; discriminate.
  - repeat split; discriminate.
Qed.

Lemma stop_command_never_fails_witness :
  IsActive (demo_session 100000) = true
  /\ snd (HandleRecordStopCommand 4000000 5000000 (demo_session 100000))
     = demo_stopped.
Proof.
  assert (H : IsActive (demo_session 100000) = true) by reflexivity.
  split; [exact H|].
  destruct (stop_command_never_fails 4000000 5000000 (demo_session 100000))
    as (_ & _ & Hact).
  by rewrite (Hact H).
Defined.

(** ** When EscapeJson is enough *)

Lemma json_not_ok_escape_char (c : ascii) (rest : string) :
  forbidden_in_json_text c = true ->
  json_string_body_ok (escape_char c +:+ rest) = false.
Proof.
  destruct c as [[] [] [] [] [] [] [] []]; intros H;
    first [discriminate H | reflexivity].
Qed.

(** X23: the text EscapeJson produces is a well-formed JSON string body
    exactly for the names whose only characters below 0x20 are tab,
    line feed and carriage return. *)
Theorem EscapeJson_ok_iff_tame (s : string) :
  json_string_body_ok (EscapeJson s) = true <-> tame s = true.
Proof.
  split; [|apply EscapeJson_tame_ok].
  unfold tame. induction s as [|c s IH]; [done|].
  cbn [EscapeJson string_exists]. rewrite negb_orb.
  destruct (forbidden_in_json_text c) eqn:Hc.
  - by rewrite json_not_ok_escape_char.
  - by rewrite json_ok_escape_char.
Qed.

(** ** Starting again *)

Lemma StartSession_success_radius (name : string) (player : option Unit)
    (mapFilter : Z) (radius : Float32.t) (env : StartEnv) (w0 w1 : World) :
  StartSession name player mapFilter radius env w0 = (true, w1) ->
  _radius (recorder w1) =
    if Float32.gtb radius Float32.zero then radius
    else if Float32.leb (_radius (recorder w0)) Float32.zero
         then cfg_DefaultRadius (sConfigMgr w0)
         else _radius (recorder w0).
Proof.
  unfold StartSession.
  destruct (_active (recorder w0)); [discriminate|].
  destruct (_enabled (recorder w0)); [|discriminate]. cbn [negb].
  destruct (create_directories_error env); [discriminate|].
  destruct (ofstream_open _ _ _ _) as [f fs].
  destruct (negb (is_open f)); [discriminate|].
  intros [= <-]. cbn [recorder LOG]. rewrite WriteEvent_recorder.
  reflexivity.
Qed.

Lemma StopSession_config (now : Z) (w : World) :
  sConfigMgr (snd (StopSession now w)) = sConfigMgr w.
Proof.
  unfold StopSession. destruct (_active (recorder w)); [|reflexivity].
  cbn. apply WriteEvent_config.
Qed.

(** X24: nothing of a stopped session reaches the next one.  A
    session started after a stop with no player, no map override and no
    positive radius has no map filter, no instance filter, its anchor
    at the origin of map 0, and as radius the configured default, not
    the radius of the session before. *)
Theorem restart_inherits_nothing (now : Z) (w : World) (name : string)
    (radius : Float32.t) (env : StartEnv) (w1 : World) :
  IsActive w = true ->
  Float32.gtb radius Float32.zero = false ->
  StartSession name None 0 radius env (snd (StopSession now w)) = (true, w1) ->
  _mapFilter (recorder w1) = 0
  /\ _instanceFilter (recorder w1) = 0
  /\ _recorderMapId (recorder w1) = 0
  /\ _recorderX (recorder w1) = Float32.zero
  /\ _recorderY (recorder w1) = Float32.zero
  /\ _recorderZ (recorder w1) = Float32.zero
  /\ _radius (recorder w1) = cfg_DefaultRadius (sConfigMgr w).
Proof.
  unfold IsActive. intros Ha Hr HS.
  pose proof (StartSession_success_radius _ _ _ _ _ _ _ HS) as Hrad.
  destruct (StartSession_success_filters _ _ _ _ _ _ _ HS)
    as (_ & Hm & Hi & _).
  destruct (StopSession_active now w Ha)
    as (_ & _ & _ & _ & Hi0 & Hr0 & Hx0 & Hy0 & Hz0 & Hmap0).
  rewrite Hr, Hr0, StopSession_config in Hrad. cbn in Hrad.
  rewrite Hi0 in Hi.
  revert HS. unfold StartSession.
  destruct (_active (recorder (snd (StopSession now w)))); [discriminate|].
  destruct (_enabled (recorder (snd (StopSession now w)))); [|discriminate].
  cbn [negb].
  destruct (create_directories_error env); [discriminate|].
  destruct (ofstream_open _ _ _ _) as [f fs].
  destruct (negb (is_open f)); [discriminate|].
  intros [= <-]. cbn [recorder LOG]. rewrite WriteEvent_recorder.
  cbn. rewrite Hx0, Hy0, Hz0, Hmap0.
  cbn [recorder LOG] in Hrad. rewrite WriteEvent_recorder in Hrad.
  cbn in Hrad. repeat split; assumption.
Qed.

Lemma restart_inherits_nothing_witness :
  IsActive (demo_session 100000) = true
  /\ StartSession "next" None 0 Float32.zero demo_env demo_stopped
     = (true, snd (StartSession "next" None 0 Float32.zero demo_env
                     demo_stopped))
  /\ _radius (recorder (snd (StartSession "next" None 0 Float32.zero demo_env
                               demo_stopped)))
     = Float32.zero.
Proof.
  assert (H1 : IsActive (demo_session 100000) = true)
    by (vm_compute; reflexivity).
  assert (H2 : StartSession "next" None 0 Float32.zero demo_env demo_stopped
               = (true, snd (StartSession "next" None 0 Float32.zero demo_env
                               demo_stopped)))
    by (vm_compute; reflexivity).
  split; [exact H1|]. split; [exact H2|].
  destruct (restart_inherits_nothing 5000000 (demo_session 100000) "next"
              Float32.zero demo_env _ H1 eq_refl H2)
    as (_ & _ & _ & _ & _ & _ & Hrad).
  exact Hrad.
Defined.
